(** * mcp_server.py: a one-shot SSE endpoint serving a fixed toolgroup list

    The program is a FastAPI application with a single route.  Its handler
    builds a dictionary literal, wraps a one-element generator expression
    around [json.dumps] of it and hands that generator to sse_starlette's
    [EventSourceResponse].

    The development follows the layers the program runs through:
    - [Py]: the Python object store (values, lists and dicts with identity,
      exceptions, a state-and-exception monad, the iterator protocol);
    - [Json]: [json.dumps] with its default settings, and a reader of JSON
      texts used to state what a client decodes;
    - [Sse]: sse_starlette's event framing and [EventSourceResponse];
    - [FastApi]: the application object, route registration and dispatch;
    - [McpServer]: the source file itself. *)

From Stdlib Require Import ZArith NArith Ascii String List Lia Bool.
From stdpp Require Import base gmap strings list fin_maps pretty.

Local Open Scope string_scope.
Local Open Scope Z_scope.

(* ===================================================================== *)
(** ** Python objects, exceptions and the iterator protocol *)
(* ===================================================================== *)

Module Py.

(** Object identity, what [id(o)] returns. *)
Definition loc := positive.

(** Dictionary keys.  [KOther] stands for any other hashable key (a tuple,
    bytes, a frozenset, ...); the string is the name of its class. *)
Inductive key :=
| KStr (s : string)
| KInt (z : Z)
| KBool (b : bool)
| KNone
| KOther (cls : string).

(** Values held in variables and containers.  Strings, integers, booleans
    and [None] are immutable and are carried by value; a [str] is a Rocq
    string whose characters are read as code points below 256.  Lists,
    dicts and everything else live in the store and are carried by
    reference.  Floats do not occur in the program and are left out. *)
Inductive val :=
| VNone
| VBool (b : bool)
| VInt (z : Z)
| VStr (s : string)
| VRef (l : loc).

(** Store objects.  A dict keeps its items in insertion order.  [OOpaque]
    is an object of some class the JSON encoder has no rule for (a set,
    bytes, a user class instance, ...); the string is the class name. *)
Inductive obj :=
| OList (items : list val)
| ODict (items : list (key * val))
| OOpaque (cls : string).

(** The part of the process state a request handler could see or touch:
    the object store, the module-level variables that hold values of the
    store, and the files of the process. *)
Record world := World {
  heap : gmap loc obj;
  globals : gmap string val;
  files : gmap string string
}.

Inductive exn :=
| TypeError (msg : string)
| ValueError (msg : string)
| RecursionError
| SystemError (msg : string).

Inductive result (A : Type) :=
| Ok (a : A)
| Raise (e : exn).
Arguments Ok {A} a.
Arguments Raise {A} e.

(** Handlers run in a state-and-exception monad over [world]. *)
Definition M (A : Type) : Type := world -> result (A * world).

Definition ret {A} (a : A) : M A := fun w => Ok (a, w).

Definition bind {A B} (m : M A) (k : A -> M B) : M B :=
  fun w => match m w with
           | Ok (a, w') => k a w'
           | Raise e => Raise e
           end.

Declare Scope py_scope.
Delimit Scope py_scope with py.
Notation "'let!' x ':=' m 'in' k" := (bind m (fun x => k))
  (at level 10, x name, m at level 100, k at level 200) : py_scope.

(** Allocation of a new container object: a display ([[...]] or [{...}])
    always creates an object with an identity not in use. *)
Definition alloc (o : obj) : M val :=
  fun w =>
    let l := fresh (dom (heap w)) in
    Ok (VRef l, World (<[l := o]> (heap w)) (globals w) (files w)).

(** Every reference held by a value or an object. *)
Definition val_refs (v : val) : list loc :=
  match v with
  | VRef l => [l]
  | _ => []
  end.

Definition obj_refs (o : obj) : list loc :=
  match o with
  | OList items => items ≫= val_refs
  | ODict items => items ≫= (fun kv => val_refs (snd kv))
  | OOpaque _ => []
  end.

(** A store is closed when no object refers outside it, and a world is
    closed when its store is and its variables refer into the store. *)
Definition closed (h : gmap loc obj) : Prop :=
  forall l o, h !! l = Some o -> forall l', l' ∈ obj_refs o -> l' ∈ dom h.

Definition closed_world (w : world) : Prop :=
  closed (heap w) /\
  forall x v, globals w !! x = Some v -> forall l, l ∈ val_refs v -> l ∈ dom (heap w).

(** The same as a test. *)
Definition closed_worldb (w : world) : bool :=
  bool_decide (map_Forall (fun _ o => Forall (fun l => l ∈ dom (heap w)) (obj_refs o))
                 (heap w))
  && bool_decide (map_Forall (fun _ v => Forall (fun l => l ∈ dom (heap w)) (val_refs v))
                    (globals w)).

(** [reachable h l l']: object [l'] can be reached from object [l] by
    following references held in the store [h]. *)
Inductive reachable (h : gmap loc obj) : loc -> loc -> Prop :=
| reach_here l : reachable h l l
| reach_step l o l' l'' :
    h !! l = Some o -> l' ∈ obj_refs o -> reachable h l' l'' ->
    reachable h l l''.

(** An object is live when a module-level variable reaches it; any other
    object is garbage. *)
Definition live (w : world) (l : loc) : Prop :=
  exists x v r, globals w !! x = Some v /\ r ∈ val_refs v /\ reachable (heap w) r l.

(** The iterator protocol: [next] either yields an item and the advanced
    iterator, signals exhaustion ([StopIteration]) or raises. *)
Inductive step (G A : Type) :=
| Yield (a : A) (g : G)
| Stop
| Fail (e : exn).
Arguments Yield {G A} a g.
Arguments Stop {G A}.
Arguments Fail {G A} e.

Class Iterator (G A : Type) := next : gmap loc obj -> G -> step G A.

(** [range(n)] and its iterator. *)
Record range_iterator := RangeIter { ri_index : Z; ri_stop : Z }.

Definition range (n : Z) : range_iterator := RangeIter 0 n.

Definition range_next (it : range_iterator) : option (Z * range_iterator) :=
  if ri_index it <? ri_stop it
  then Some (ri_index it, RangeIter (ri_index it + 1) (ri_stop it))
  else None.

(** How many items a range iterator still has to give. *)
Definition range_remaining (it : range_iterator) : nat :=
  Z.to_nat (ri_stop it - ri_index it).

End Py.

Import Py.

(* ===================================================================== *)
(** ** json.dumps with default settings, and a reader of JSON texts *)
(* ===================================================================== *)

Module Json.

(** *** The encoder (json/encoder.py) *)

Definition hex_digit (n : N) : ascii :=
  ascii_of_N (if (n <? 10)%N then 48 + n else 87 + n)%N.

(** The four-hex-digit escape (format u{0:04x} behind a backslash) of a
    code point below 256. *)
Definition escape_u (n : N) : string :=
  "\u00" +:+ String (hex_digit (n / 16)) (String (hex_digit (n mod 16)) "").

(** [ESCAPE_DCT] looked up on a character matched by [ESCAPE_ASCII]: the
    backslash, the double quote and everything outside the range from the
    space to the tilde.  A character the pattern does not match is kept. *)
Definition escape_char (c : ascii) : string :=
  let n := N_of_ascii c in
  if (n =? 92)%N then "\\"
  else if (n =? 34)%N then "\" +:+ String c ""
  else if (n =? 8)%N then "\b"
  else if (n =? 12)%N then "\f"
  else if (n =? 10)%N then "\n"
  else if (n =? 13)%N then "\r"
  else if (n =? 9)%N then "\t"
  else if ((n <? 32) || (126 <? n))%N then escape_u n
  else String c "".

Fixpoint escape_ascii (s : string) : string :=
  match s with
  | EmptyString => ""
  | String c rest => escape_char c +:+ escape_ascii rest
  end.

Definition quote : string := String (ascii_of_N 34) "".

(** [encode_basestring_ascii]. *)
Definition encode_basestring_ascii (s : string) : string :=
  quote +:+ escape_ascii s +:+ quote.

(** The decimal digits of an integer, with its sign. *)
Definition intstr (z : Z) : string := pretty z.

(** [sys.int_info.default_max_str_digits]. *)
Definition max_str_digits : nat := 4300.

(** [int.__repr__]: the decimal digits, or ValueError for a number of more
    digits than the interpreter converts to text. *)
Definition int_repr (z : Z) : result string :=
  if (max_str_digits <? String.length (pretty (Z.abs_N z)))%nat
  then Raise (ValueError ("Exceeds the limit (4300 digits) for integer string conversion; "
                         +:+ "use sys.set_int_max_str_digits() to increase the limit"))
  else Ok (intstr z).

(** [''.join] with a separator between the items. *)
Fixpoint join (sep : string) (parts : list string) : string :=
  match parts with
  | [] => ""
  | [p] => p
  | p :: rest => p +:+ sep +:+ join sep rest
  end.

(** Run [f] over a list, stopping at the first exception. *)
Fixpoint mapM {A B} (f : A -> result B) (l : list A) : result (list B) :=
  match l with
  | [] => Ok []
  | a :: rest =>
      match f a with
      | Raise e => Raise e
      | Ok b => match mapM f rest with
                | Raise e => Raise e
                | Ok bs => Ok (b :: bs)
                end
      end
  end.

(** The same over options. *)
Fixpoint mapM_opt {A B} (f : A -> option B) (l : list A) : option (list B) :=
  match l with
  | [] => Some []
  | a :: rest =>
      match f a with
      | None => None
      | Some b => match mapM_opt f rest with
                  | None => None
                  | Some bs => Some (b :: bs)
                  end
      end
  end.

(** The key conversion at the head of the loop of [_iterencode_dict]
    ([skipkeys] is [False]). *)
Definition encode_key (k : key) : result string :=
  match k with
  | KStr s => Ok s
  | KBool true => Ok "true"
  | KBool false => Ok "false"
  | KNone => Ok "null"
  | KInt z => int_repr z
  | KOther cls =>
      Raise (TypeError ("keys must be str, int, float, bool or None, not " +:+ cls))
  end.

Definition item_separator : string := ", ".
Definition key_separator : string := ": ".

(** [_iterencode], [_iterencode_list] and [_iterencode_dict] with
    [indent=None], [sort_keys=False] and [check_circular=True]; the chunks
    are joined as [encode] does.  [markers] holds the identities of the
    containers being encoded.  [depth] bounds the nesting of calls the way
    the interpreter's recursion limit does. *)
Fixpoint iterencode (depth : nat) (h : gmap loc obj) (markers : list loc)
    (o : val) : result string :=
  match o with
  | VStr s => Ok (encode_basestring_ascii s)
  | VNone => Ok "null"
  | VBool true => Ok "true"
  | VBool false => Ok "false"
  | VInt z => int_repr z
  | VRef l =>
      match depth with
      | O => Raise RecursionError
      | S depth' =>
          match h !! l with
          | None => Raise (SystemError "dangling reference")
          | Some (OList []) => Ok "[]"
          | Some (OList items) =>
              if bool_decide (l ∈ markers)
              then Raise (ValueError "Circular reference detected")
              else
                match mapM (iterencode depth' h (l :: markers)) items with
                | Raise e => Raise e
                | Ok parts => Ok ("[" +:+ join item_separator parts +:+ "]")
                end
          | Some (ODict []) => Ok "{}"
          | Some (ODict items) =>
              if bool_decide (l ∈ markers)
              then Raise (ValueError "Circular reference detected")
              else
                match mapM (fun kv : key * val =>
                              match encode_key (fst kv) with
                              | Raise e => Raise e
                              | Ok k =>
                                  match iterencode depth' h (l :: markers) (snd kv) with
                                  | Raise e => Raise e
                                  | Ok v =>
                                      Ok (encode_basestring_ascii k +:+ key_separator +:+ v)
                                  end
                              end) items with
                | Raise e => Raise e
                | Ok parts => Ok ("{" +:+ join item_separator parts +:+ "}")
                end
          | Some (OOpaque cls) =>
              Raise (TypeError ("Object of type " +:+ cls +:+ " is not JSON serializable"))
          end
      end
  end.

(** The interpreter's default recursion limit.  It bounds the nesting of
    containers from above: the frames already on the stack when
    [json.dumps] is called count towards it too, so the interpreter gives
    up somewhat earlier. *)
Definition recursion_limit : nat := 1000.

(** [json.dumps(obj)]. *)
Definition dumps (h : gmap loc obj) (o : val) : result string :=
  iterencode recursion_limit h [] o.

(** *** A reader of JSON texts

    What a client obtains when it decodes a JSON text: the grammar of
    RFC 8259 with integer numbers, strings over code points below 256. *)

#[local] Set Warnings "-register-all".

Inductive json :=
| JNull
| JBool (b : bool)
| JInt (z : Z)
| JStr (s : string)
| JArr (items : list json)
| JObj (members : list (string * json)).

Definition dquote : ascii := "034"%char.
Definition backslash : ascii := "092"%char.

Definition is_ws (c : ascii) : bool :=
  let n := N_of_ascii c in
  ((n =? 32) || (n =? 9) || (n =? 10) || (n =? 13))%N.

Fixpoint skip_ws (s : string) : string :=
  match s with
  | String c rest => if is_ws c then skip_ws rest else s
  | EmptyString => s
  end.

Definition hex_value (c : ascii) : option N :=
  let n := N_of_ascii c in
  if ((48 <=? n) && (n <=? 57))%N then Some (n - 48)%N
  else if ((97 <=? n) && (n <=? 102))%N then Some (n - 87)%N
  else if ((65 <=? n) && (n <=? 70))%N then Some (n - 55)%N
  else None.

(** The character a two-character escape stands for. *)
Definition unescape (c : ascii) : option ascii :=
  if Ascii.eqb c dquote then Some dquote
  else if Ascii.eqb c backslash then Some backslash
  else if Ascii.eqb c "/" then Some "/"%char
  else if Ascii.eqb c "b" then Some (ascii_of_N 8)
  else if Ascii.eqb c "f" then Some (ascii_of_N 12)
  else if Ascii.eqb c "n" then Some (ascii_of_N 10)
  else if Ascii.eqb c "r" then Some (ascii_of_N 13)
  else if Ascii.eqb c "t" then Some (ascii_of_N 9)
  else None.

(** The rest of a string after its opening quote: the decoded characters
    up to the closing quote, and what follows it. *)
Fixpoint read_string (s : string) : option (string * string) :=
  match s with
  | EmptyString => None
  | String c rest =>
      if Ascii.eqb c dquote then Some ("", rest)
      else if Ascii.eqb c backslash then
        match rest with
        | String e rest1 =>
            if Ascii.eqb e "u" then
              match rest1 with
              | String h1 (String h2 (String h3 (String h4 rest2))) =>
                  match hex_value h1, hex_value h2, hex_value h3, hex_value h4 with
                  | Some 0%N, Some 0%N, Some a, Some b =>
                      match read_string rest2 with
                      | Some (t, r) => Some (String (ascii_of_N (16 * a + b)) t, r)
                      | None => None
                      end
                  | _, _, _, _ => None
                  end
              | _ => None
              end
            else
              match unescape e with
              | Some d =>
                  match read_string rest1 with
                  | Some (t, r) => Some (String d t, r)
                  | None => None
                  end
              | None => None
              end
        | EmptyString => None
        end
      else if (N_of_ascii c <? 32)%N then None
      else
        match read_string rest with
        | Some (t, r) => Some (String c t, r)
        | None => None
        end
  end.

Definition digit_value (c : ascii) : option Z :=
  let n := N_of_ascii c in
  if ((48 <=? n) && (n <=? 57))%N then Some (Z.of_N (n - 48)) else None.

(** The digits at the head of a text, as a number, and what follows. *)
Fixpoint read_digits (acc : Z) (s : string) : Z * string :=
  match s with
  | String c rest =>
      match digit_value c with
      | Some d => read_digits (10 * acc + d) rest
      | None => (acc, s)
      end
  | EmptyString => (acc, s)
  end.

(** An integer without sign: one digit at least, no leading zero, and no
    fraction or exponent behind it. *)
Definition read_nat (s : string) : option (Z * string) :=
  match s with
  | String c rest =>
      match digit_value c with
      | None => None
      | Some d =>
          let (z, r) := if d =? 0 then (0, rest) else read_digits d rest in
          match r with
          | String c' _ =>
              if Ascii.eqb c' "." || Ascii.eqb c' "e" || Ascii.eqb c' "E"
                 || (match digit_value c' with Some _ => true | None => false end)
              then None else Some (z, r)
          | EmptyString => Some (z, r)
          end
      end
  | EmptyString => None
  end.

Definition strip_prefix (p s : string) : option string :=
  if String.prefix p s
  then Some (String.substring (String.length p) (String.length s - String.length p) s)
  else None.

(** Values, the elements of an array after its bracket and the members of
    an object after its brace.  Every call consumes a character, so [n]
    above the length of the text is enough. *)
Fixpoint read_value (n : nat) (s : string) : option (json * string) :=
  match n with
  | O => None
  | S n' =>
      match s with
      | EmptyString => None
      | String c rest =>
          if Ascii.eqb c "[" then
            match skip_ws rest with
            | String c' rest' =>
                if Ascii.eqb c' "]" then Some (JArr [], rest')
                else match read_elements n' (skip_ws rest) with
                     | Some (items, r) => Some (JArr items, r)
                     | None => None
                     end
            | EmptyString => None
            end
          else if Ascii.eqb c "{" then
            match skip_ws rest with
            | String c' rest' =>
                if Ascii.eqb c' "}" then Some (JObj [], rest')
                else match read_members n' (skip_ws rest) with
                     | Some (members, r) => Some (JObj members, r)
                     | None => None
                     end
            | EmptyString => None
            end
          else if Ascii.eqb c dquote then
            match read_string rest with
            | Some (t, r) => Some (JStr t, r)
            | None => None
            end
          else if Ascii.eqb c "-" then
            match read_nat rest with
            | Some (z, r) => Some (JInt (- z), r)
            | None => None
            end
          else
            match strip_prefix "true" s, strip_prefix "false" s, strip_prefix "null" s with
            | Some r, _, _ => Some (JBool true, r)
            | _, Some r, _ => Some (JBool false, r)
            | _, _, Some r => Some (JNull, r)
            | _, _, _ =>
                match read_nat s with
                | Some (z, r) => Some (JInt z, r)
                | None => None
                end
            end
      end
  end
with read_elements (n : nat) (s : string) : option (list json * string) :=
  match n with
  | O => None
  | S n' =>
      match read_value n' s with
      | None => None
      | Some (v, r) =>
          match skip_ws r with
          | String c rest =>
              if Ascii.eqb c "," then
                match read_elements n' (skip_ws rest) with
                | Some (vs, r') => Some (v :: vs, r')
                | None => None
                end
              else if Ascii.eqb c "]" then Some ([v], rest)
              else None
          | EmptyString => None
          end
      end
  end
with read_members (n : nat) (s : string) : option (list (string * json) * string) :=
  match n with
  | O => None
  | S n' =>
      match s with
      | String c rest =>
          if Ascii.eqb c dquote then
            match read_string rest with
            | None => None
            | Some (k, r) =>
                match skip_ws r with
                | String c' rest' =>
                    if Ascii.eqb c' ":" then
                      match read_value n' (skip_ws rest') with
                      | None => None
                      | Some (v, r') =>
                          match skip_ws r' with
                          | String c'' rest'' =>
                              if Ascii.eqb c'' "," then
                                match read_members n' (skip_ws rest'') with
                                | Some (ms, r'') => Some ((k, v) :: ms, r'')
                                | None => None
                                end
                              else if Ascii.eqb c'' "}" then Some ([(k, v)], rest'')
                              else None
                          | EmptyString => None
                          end
                      end
                    else None
                | EmptyString => None
                end
            end
          else None
      | EmptyString => None
      end
  end.

(** Decode a whole text: one value, white space allowed around it. *)
Definition loads (s : string) : option json :=
  match read_value (S (String.length s)) (skip_ws s) with
  | Some (v, r) => match skip_ws r with
                   | EmptyString => Some v
                   | _ => None
                   end
  | None => None
  end.

(** *** Objects as Python dicts

    [json.loads] collects the members of an object as pairs and builds the
    dict with [dict(pairs)]: a name that comes again keeps its first place
    and takes the last value. *)

Fixpoint dict_set (d : list (string * json)) (k : string) (v : json)
    : list (string * json) :=
  match d with
  | [] => [(k, v)]
  | (k', v') :: rest =>
      if String.eqb k' k then (k', v) :: rest else (k', v') :: dict_set rest k v
  end.

Definition dict_of_pairs (pairs : list (string * json)) : list (string * json) :=
  fold_left (fun d kv => dict_set d (fst kv) (snd kv)) pairs [].

(** A JSON value with every object turned into a dict that way. *)
Fixpoint as_dicts (t : json) : json :=
  match t with
  | JArr items => JArr (map as_dicts items)
  | JObj members =>
      JObj (dict_of_pairs (map (fun kv => (fst kv, as_dicts (snd kv))) members))
  | _ => t
  end.

(** [json.loads], on the texts this reader takes (numbers without fraction
    and exponent, code points below 256). *)
Definition py_loads (s : string) : option json := as_dicts <$> loads s.

(** No object of the value has two members of the same name. *)
Fixpoint names_distinct (t : json) : bool :=
  match t with
  | JArr items => forallb names_distinct items
  | JObj members =>
      bool_decide (NoDup (map fst members))
      && forallb (fun kv => names_distinct (snd kv)) members
  | _ => true
  end.

(** The JSON value a Python value stands for: the tree below it in the
    store, with the keys as the encoder writes them. *)
Fixpoint reify (depth : nat) (h : gmap loc obj) (o : val) : option json :=
  match o with
  | VNone => Some JNull
  | VBool b => Some (JBool b)
  | VInt z => Some (JInt z)
  | VStr s => Some (JStr s)
  | VRef l =>
      match depth with
      | O => None
      | S depth' =>
          match h !! l with
          | Some (OList items) =>
              JArr <$> mapM_opt (reify depth' h) items
          | Some (ODict items) =>
              JObj <$> mapM_opt (fun kv : key * val =>
                                   match encode_key (fst kv), reify depth' h (snd kv) with
                                   | Ok k, Some v => Some (k, v)
                                   | _, _ => None
                                   end) items
          | _ => None
          end
      end
  end.

End Json.

Import Json.

(* ===================================================================== *)
(** ** sse_starlette: event framing and EventSourceResponse *)
(* ===================================================================== *)

Module Sse.

Definition CR : ascii := ascii_of_N 13.
Definition LF : ascii := ascii_of_N 10.

(** [DEFAULT_SEPARATOR], carriage return and line feed. *)
Definition DEFAULT_SEPARATOR : string := String CR (String LF "").

(** [LINE_SEP_EXPR.split]: cut a text at every CRLF, lone CR or lone LF.
    [cur] is the current piece, kept in reverse. *)
Fixpoint split_lines_aux (cur : string) (s : string) : list string :=
  match s with
  | EmptyString => [String.rev cur]
  | String c rest =>
      if Ascii.eqb c CR then
        match rest with
        | String c' rest' =>
            if Ascii.eqb c' LF
            then String.rev cur :: split_lines_aux "" rest'
            else String.rev cur :: split_lines_aux "" rest
        | EmptyString => String.rev cur :: split_lines_aux "" rest
        end
      else if Ascii.eqb c LF then String.rev cur :: split_lines_aux "" rest
      else split_lines_aux (String c cur) rest
  end.

Definition split_lines (s : string) : list string := split_lines_aux "" s.

(** A text without a line break. *)
Fixpoint line_free (s : string) : bool :=
  match s with
  | EmptyString => true
  | String c rest => negb (Ascii.eqb c CR || Ascii.eqb c LF) && line_free rest
  end.

(** [LINE_SEP_EXPR.sub] with the empty replacement: drop every line break. *)
Definition strip_line_seps (s : string) : string :=
  String.concat "" (split_lines s).

(** [ServerSentEvent]: every field is optional. *)
Record ServerSentEvent := {
  sse_data : option string;
  sse_event : option string;
  sse_id : option string;
  sse_retry : option Z;
  sse_comment : option string;
  sse_sep : string
}.

Definition write_lines (field : string) (sep : string) (text : string) : string :=
  String.concat "" (map (fun chunk => field +:+ chunk +:+ sep) (split_lines text)).

(** [ServerSentEvent.encode]: comment lines, then id, event, data lines and
    retry, each present field followed by the separator, and one more
    separator that ends the event. *)
Definition encode (e : ServerSentEvent) : string :=
  (match sse_comment e with
   | Some c => write_lines ": " (sse_sep e) c
   | None => ""
   end) +:+
  (match sse_id e with
   | Some i => strip_line_seps ("id: " +:+ i) +:+ sse_sep e
   | None => ""
   end) +:+
  (match sse_event e with
   | Some ev => strip_line_seps ("event: " +:+ ev) +:+ sse_sep e
   | None => ""
   end) +:+
  (match sse_data e with
   | Some d => write_lines "data: " (sse_sep e) d
   | None => ""
   end) +:+
  (match sse_retry e with
   | Some r => "retry: " +:+ pretty r +:+ sse_sep e
   | None => ""
   end) +:+
  sse_sep e.

(** What [ensure_bytes] builds from an item that is a [str]:
    [ServerSentEvent(str(data), sep=sep)]. *)
Definition event_of_str (data : string) (sep : string) : ServerSentEvent :=
  {| sse_data := Some data; sse_event := None; sse_id := None;
     sse_retry := None; sse_comment := None; sse_sep := sep |}.

(** The frame is kept as text.  The bytes sent are its UTF-8 encoding,
    which for a text of ASCII characters is the text itself, character by
    byte; every text [json.dumps] returns and the default separator are
    such texts. *)
Definition ensure_bytes (data : string) (sep : string) : string :=
  encode (event_of_str data sep).

(** ASGI messages sent to the server for one response. *)
Inductive asgi_message :=
| ResponseStart (status : Z) (headers : list (string * string))
| ResponseBody (body : string) (more_body : bool).

(** [Response.init_headers]: the given headers with lower-cased names
    (written lower-case below), then the content type, to which a charset
    is added for a [text/] media type that names none. *)
Definition charset : string := "utf-8".

(** [str.lower] on the letters A to Z. *)
Fixpoint lower (s : string) : string :=
  match s with
  | EmptyString => ""
  | String c rest =>
      let n := N_of_ascii c in
      String (if ((65 <=? n) && (n <=? 90))%N then ascii_of_N (n + 32) else c)
             (lower rest)
  end.

(** [p in s] for texts. *)
Fixpoint contains (p s : string) : bool :=
  String.prefix p s
  || match s with
     | EmptyString => false
     | String _ rest => contains p rest
     end.

Definition content_type_header (media_type : string) : string :=
  if String.prefix "text/" media_type && negb (contains "charset=" (lower media_type))
  then media_type +:+ "; charset=" +:+ charset
  else media_type.

(** [EventSourceResponse] over an iterator of type [G]. *)
Record EventSourceResponse (G : Type) := {
  body_iterator : G;
  status_code : Z;
  media_type : string;
  raw_headers : list (string * string);
  sep : string
}.
Arguments body_iterator {G} _.
Arguments status_code {G} _.
Arguments media_type {G} _.
Arguments raw_headers {G} _.
Arguments sep {G} _.

(** [EventSourceResponse(content)] with every other argument at its
    default: [status_code=200], [headers=None],
    [media_type="text/event-stream"], [sep=None]. *)
Definition new_EventSourceResponse {G} (content : G) : EventSourceResponse G :=
  let media := "text/event-stream" in
  {| body_iterator := content;
     status_code := 200;
     media_type := media;
     raw_headers := [("cache-control", "no-store");
                     ("connection", "keep-alive");
                     ("x-accel-buffering", "no");
                     ("content-type", content_type_header media)];
     sep := DEFAULT_SEPARATOR |}.

(** How streaming a response ends. *)
Inductive outcome :=
| Closed                (* the final empty body with [more_body=False] was sent *)
| Aborted (e : exn)     (* the iterator raised while streaming *)
| Running.              (* the loop was cut before the iterator ended *)

(** The loop of [_stream_response]: each item of the iterator becomes one
    body message with [more_body=True]; when the iterator is exhausted the
    empty body with [more_body=False] closes the stream.  [n] bounds the
    number of calls to [next]. *)
Fixpoint stream_body {G} `{Iterator G string} (n : nat) (h : gmap loc obj)
    (separator : string) (g : G) : list asgi_message * outcome :=
  match n with
  | O => ([], Running)
  | S n' =>
      match next h g with
      | Stop => ([ResponseBody "" false], Closed)
      | Fail e => ([], Aborted e)
      | Yield data g' =>
          let (msgs, out) := stream_body n' h separator g' in
          (ResponseBody (ensure_bytes data separator) true :: msgs, out)
      end
  end.

(** [_stream_response]: the start message, then the body loop.  The
    response also starts a timer that sends a comment line as a ping every
    fifteen seconds while the loop runs and that is cancelled when the loop
    ends; time is not part of this model, and neither is the timer. *)
Definition stream_response {G} `{Iterator G string} (n : nat)
    (h : gmap loc obj) (r : EventSourceResponse G) : list asgi_message * outcome :=
  let (msgs, out) := stream_body n h (sep r) (body_iterator r) in
  (ResponseStart (status_code r) (raw_headers r) :: msgs, out).

(** *** The receiving side

    How a client reads events off the bytes of an event stream (the
    interpretation rules of the HTML standard): the stream is cut into
    lines; a line starting with a colon is a comment; [data], [event] and
    [id] lines fill the pending event; an empty line dispatches it if it
    has data.  What is pending when the stream ends is dropped.  The
    stream is read as text: a client decodes the bytes as UTF-8 first, which
    leaves a stream of ASCII bytes as it is. *)

Record event := {
  ev_type : option string;
  ev_data : string;
  ev_id : option string
}.

(** A line cut at its first colon, one space after the colon removed. *)
Fixpoint split_field (name : string) (line : string) : string * string :=
  match line with
  | EmptyString => (String.rev name, "")
  | String c rest =>
      if Ascii.eqb c ":" then
        (String.rev name,
         match rest with
         | String c' rest' => if Ascii.eqb c' " " then rest' else rest
         | EmptyString => rest
         end)
      else split_field (String c name) rest
  end.

Fixpoint dispatch_lines (lines : list string) (data : list string)
    (ty : option string) (id : option string) : list event :=
  match lines with
  | [] => []
  | line :: rest =>
      if String.eqb line "" then
        match data with
        | [] => dispatch_lines rest [] None id
        | _ => {| ev_type := ty;
                  ev_data := String.concat (String LF "") (rev data);
                  ev_id := id |}
               :: dispatch_lines rest [] None id
        end
      else if String.prefix ":" line then dispatch_lines rest data ty id
      else
        let (name, value) := split_field "" line in
        if String.eqb name "data" then dispatch_lines rest (value :: data) ty id
        else if String.eqb name "event" then dispatch_lines rest data (Some value) id
        else if String.eqb name "id" then dispatch_lines rest data ty (Some value)
        else dispatch_lines rest data ty id
  end.

(** The complete lines of a stream: the piece after the last line break
    is not a line yet. *)
Definition stream_lines (bytes : string) : list string :=
  removelast (split_lines bytes).

Definition received_events (bytes : string) : list event :=
  dispatch_lines (stream_lines bytes) [] None None.

(** The bytes of a response: its body messages, concatenated. *)
Definition body_bytes (msgs : list asgi_message) : string :=
  String.concat "" (msgs ≫= (fun m => match m with
                                       | ResponseBody b _ => [b]
                                       | ResponseStart _ _ => []
                                       end)).

End Sse.

Import Sse.

(* ===================================================================== *)
(** ** FastAPI: the application object, registration and dispatch *)
(* ===================================================================== *)

Module FastApi.

(** What the framework hands to routing and to parameter resolution. *)
Record request := {
  req_method : string;
  req_path : string;
  req_query : list (string * string);
  req_headers : list (string * string);
  req_body : string
}.

Section App.
Context {G : Type} `{Iterator G string}.

(** A path operation function: the parameters its signature declares, and
    the function, called with the values resolved for them.  The endpoints
    of this program answer with an [EventSourceResponse]. *)
Record endpoint := {
  ep_params : list string;
  ep_call : list (string * string) -> M (EventSourceResponse G)
}.

(** Who handles a route: a function of the application, or one of the
    framework's own pages. *)
Inductive handler :=
| AppEndpoint (name : string) (e : endpoint)
| Builtin (name : string).

Record route := {
  route_path : string;
  route_methods : list string;
  route_handler : handler
}.

Record FastAPI := { routes : list route }.

(** [FastAPI()]: [setup] registers the schema and documentation pages
    before any route of the application; a plain route for [GET] also
    takes [HEAD]. *)
Definition new_FastAPI : FastAPI :=
  {| routes :=
       [ {| route_path := "/openapi.json"; route_methods := ["GET"; "HEAD"];
            route_handler := Builtin "openapi" |};
         {| route_path := "/docs"; route_methods := ["GET"; "HEAD"];
            route_handler := Builtin "swagger_ui_html" |};
         {| route_path := "/docs/oauth2-redirect"; route_methods := ["GET"; "HEAD"];
            route_handler := Builtin "swagger_ui_redirect" |};
         {| route_path := "/redoc"; route_methods := ["GET"; "HEAD"];
            route_handler := Builtin "redoc_html" |} ] |}.

(** The decorator [@app.get(path)]: append an API route for [GET] alone. *)
Definition get (path : string) (name : string) (e : endpoint) (app : FastAPI)
    : FastAPI :=
  {| routes := routes app ++
       [ {| route_path := path; route_methods := ["GET"];
            route_handler := AppEndpoint name e |} ] |}.

(** [path_regex.match]: a route path without parameters is compiled to
    the pattern that starts at the beginning of the request path, spells
    the route path and ends with the dollar sign, and Python's dollar sign
    matches at the end of the text and also just before a line feed that
    ends it.  So a request path matches when it is the route path, or the
    route path followed by one line feed. *)
Definition path_matches (pattern path : string) : bool :=
  String.eqb pattern path || String.eqb (pattern +:+ String LF "") path.

(** [Route.matches]. *)
Inductive match_result := MatchNone | MatchPartial | MatchFull.

Definition matches (r : route) (method path : string) : match_result :=
  if path_matches (route_path r) path
  then if existsb (String.eqb method) (route_methods r)
       then MatchFull else MatchPartial
  else MatchNone.

(** The loop of [Router.app]: the first full match handles the request;
    failing that the first partial match does. *)
Fixpoint find_route (rs : list route) (method path : string)
    (partial : option route) : option (route * match_result) :=
  match rs with
  | [] => match partial with
          | Some r => Some (r, MatchPartial)
          | None => None
          end
  | r :: rest =>
      match matches r method path with
      | MatchFull => Some (r, MatchFull)
      | MatchPartial =>
          find_route rest method path
            (match partial with Some p => Some p | None => Some r end)
      | MatchNone => find_route rest method path partial
      end
  end.

(** [str.rstrip] for the slash. *)
Fixpoint rstrip_slash (s : string) : string :=
  match s with
  | EmptyString => ""
  | String c rest =>
      match rstrip_slash rest with
      | EmptyString => if Ascii.eqb c "/" then "" else String c ""
      | rest' => String c rest'
      end
  end.

Definition ends_with_slash (s : string) : bool :=
  match String.rev s with
  | String c _ => Ascii.eqb c "/"
  | EmptyString => false
  end.

(** The path tried by [redirect_slashes] when nothing matched. *)
Definition redirect_path (path : string) : string :=
  if ends_with_slash path then rstrip_slash path else path +:+ "/".

(** What the framework sends back. *)
Inductive reply :=
| Streamed (msgs : list asgi_message) (out : outcome)
| FrameworkPage (name : string)
| Redirect (location : string)
| ErrorStatus (code : Z).

(** Parameter resolution: each declared parameter is read from the query;
    a missing one is a validation error. *)
Fixpoint solve_dependencies (params : list string) (query : list (string * string))
    : option (list (string * string)) :=
  match params with
  | [] => Some []
  | p :: rest =>
      match find (fun kv => String.eqb (fst kv) p) query with
      | None => None
      | Some kv =>
          match solve_dependencies rest query with
          | None => None
          | Some vs => Some ((p, snd kv) :: vs)
          end
      end
  end.

(** Run an endpoint and stream its response; [n] bounds the calls to the
    iterator's [next] that are observed. *)
Definition run_endpoint (n : nat) (e : endpoint) (req : request) (w : world)
    : reply * world :=
  match solve_dependencies (ep_params e) (req_query req) with
  | None => (ErrorStatus 422, w)
  | Some values =>
      match ep_call e values w with
      | Raise _ => (ErrorStatus 500, w)
      | Ok (resp, w') =>
          let (msgs, out) := stream_response n (heap w') resp in
          (Streamed msgs out, w')
      end
  end.

(** One request through the application. *)
Definition handle_request (n : nat) (app : FastAPI) (req : request) (w : world)
    : reply * world :=
  match find_route (routes app) (req_method req) (req_path req) None with
  | Some (r, MatchFull) =>
      match route_handler r with
      | AppEndpoint _ e => run_endpoint n e req w
      | Builtin name => (FrameworkPage name, w)
      end
  | Some (_, _) => (ErrorStatus 405, w)
  | None =>
      if negb (String.eqb (req_path req) "/") then
        match find_route (routes app) (req_method req)
                (redirect_path (req_path req)) None with
        | Some _ => (Redirect (redirect_path (req_path req)), w)
        | None => (ErrorStatus 404, w)
        end
      else (ErrorStatus 404, w)
  end.

(** The server answers requests one after the other. *)
Fixpoint serve_all (n : nat) (app : FastAPI) (reqs : list request) (w : world)
    : list reply * world :=
  match reqs with
  | [] => ([], w)
  | req :: rest =>
      let (r, w') := handle_request n app req w in
      let (rs, w'') := serve_all n app rest w' in
      (r :: rs, w'')
  end.

(** The names of the application's own functions that a request reaches. *)
Definition app_endpoint_called (app : FastAPI) (req : request) : option string :=
  match find_route (routes app) (req_method req) (req_path req) None with
  | Some (r, MatchFull) =>
      match route_handler r with
      | AppEndpoint name _ => Some name
      | Builtin _ => None
      end
  | _ => None
  end.


End App.

Arguments endpoint G : clear implicits.
Arguments handler G : clear implicits.
Arguments route G : clear implicits.
Arguments FastAPI G : clear implicits.

End FastApi.

(* ===================================================================== *)
(** ** mcp_server.py *)
(* ===================================================================== *)

Module McpServer.

Local Open Scope py_scope.

(** The generator object of [(json.dumps(data) for _ in range(1))]: the
    iterator over [range(1)], made when the expression is evaluated, and
    the captured variable [data]. *)
Record genexpr := GenExpr {
  gi_iter : range_iterator;
  gi_data : val
}.

(** One resumption of the generator: advance the range iterator; if it
    gives an item, evaluate [json.dumps(data)] and yield it. *)
#[export] Instance genexpr_next : Iterator genexpr string :=
  fun h g =>
    match range_next (gi_iter g) with
    | None => Stop
    | Some (_, it') =>
        match dumps h (gi_data g) with
        | Ok s => Yield s (GenExpr it' (gi_data g))
        | Raise e => Fail e
        end
    end.

(** The dictionary display bound to [data]; the inner displays are built
    first. *)
Definition build_data : M val :=
  let! ids := alloc (OList [VStr "toy_faiss_db"]) in
  let! args := alloc (ODict [(KStr "vector_db_ids", ids)]) in
  let! group := alloc (ODict [(KStr "name", VStr "rag-dogs"); (KStr "args", args)]) in
  let! groups := alloc (OList [group]) in
  alloc (ODict [(KStr "toolgroups", groups)]).

(** [async def mcp_context()]. *)
Definition mcp_context : M (EventSourceResponse genexpr) :=
  let! data := build_data in
  ret (new_EventSourceResponse (GenExpr (range 1) data)).

(** The function as FastAPI sees it: no declared parameter. *)
Definition mcp_context_endpoint : FastApi.endpoint genexpr :=
  {| FastApi.ep_params := [];
     FastApi.ep_call := fun _ => mcp_context |}.

(** [app = FastAPI()] followed by [@app.get("/sse")]. *)
Definition app : FastApi.FastAPI genexpr :=
  FastApi.get "/sse" "mcp_context" mcp_context_endpoint FastApi.new_FastAPI.

End McpServer.

Import McpServer.

(* ===================================================================== *)
(** ** What the endpoint is expected to send *)
(* ===================================================================== *)

(** JSON texts below are written with apostrophes where the text has
    double quotes. *)
Fixpoint dq (s : string) : string :=
  match s with
  | EmptyString => ""
  | String c rest => String (if Ascii.eqb c "'" then dquote else c) (dq rest)
  end.

(** The wire payload. *)
Definition payload : string :=
  dq "{'toolgroups': [{'name': 'rag-dogs', 'args': {'vector_db_ids': ['toy_faiss_db']}}]}".

(** The same text as byte values. *)
Definition payload_bytes : list N :=
  [123; 34; 116; 111; 111; 108; 103; 114; 111; 117; 112; 115; 34; 58; 32;
   91; 123; 34; 110; 97; 109; 101; 34; 58; 32; 34; 114; 97; 103; 45; 100;
   111; 103; 115; 34; 44; 32; 34; 97; 114; 103; 115; 34; 58; 32; 123; 34;
   118; 101; 99; 116; 111; 114; 95; 100; 98; 95; 105; 100; 115; 34; 58; 32;
   91; 34; 116; 111; 121; 95; 102; 97; 105; 115; 115; 95; 100; 98; 34; 93;
   125; 125; 93; 125]%N.

Definition bytes_of (s : string) : list N :=
  map N_of_ascii (list_ascii_of_string s).

(** The payload as a JSON value. *)
Definition payload_json : json :=
  JObj [("toolgroups",
         JArr [JObj [("name", JStr "rag-dogs");
                     ("args", JObj [("vector_db_ids", JArr [JStr "toy_faiss_db"])])]])].

(** The frame of the one event, and the messages of a whole response. *)
Definition frame : string :=
  "data: " +:+ payload +:+ DEFAULT_SEPARATOR +:+ DEFAULT_SEPARATOR.

Definition sse_headers : list (string * string) :=
  [("cache-control", "no-store"); ("connection", "keep-alive");
   ("x-accel-buffering", "no");
   ("content-type", "text/event-stream; charset=utf-8")].

Definition sse_messages : list asgi_message :=
  [ResponseStart 200 sse_headers; ResponseBody frame true; ResponseBody "" false].

(** A request for [GET /sse] carrying anything else a request can carry. *)
Definition get_sse (query headers : list (string * string)) (body : string)
    : FastApi.request :=
  {| FastApi.req_method := "GET"; FastApi.req_path := "/sse";
     FastApi.req_query := query; FastApi.req_headers := headers;
     FastApi.req_body := body |}.

Definition is_get_sse (req : FastApi.request) : bool :=
  String.eqb (FastApi.req_method req) "GET" && String.eqb (FastApi.req_path req) "/sse".


(** The status line of a reply. *)
Definition reply_status (r : FastApi.reply) : option Z :=
  match r with
  | FastApi.Streamed (ResponseStart status _ :: _) _ => Some status
  | FastApi.Streamed _ _ => None
  | FastApi.FrameworkPage _ => Some 200
  | FastApi.Redirect _ => Some 307
  | FastApi.ErrorStatus code => Some code
  end.

(** The value of the first header with a given name. *)
Definition header_value (name : string) (headers : list (string * string))
    : option string :=
  snd <$> find (fun kv => String.eqb (fst kv) name) headers.

(** The media type of a [content-type] header value: what stands before
    the parameters. *)
Fixpoint header_media_type (v : string) : string :=
  match v with
  | EmptyString => ""
  | String c rest => if Ascii.eqb c ";" then "" else String c (header_media_type rest)
  end.

(** The store holds the payload dictionary at [l]: five distinct objects
    shaped as the display in the source. *)
Definition payload_at (h : gmap loc obj) (l : loc) : Prop :=
  exists l1 l2 l3 l4,
    NoDup [l1; l2; l3; l4; l] /\
    h !! l1 = Some (OList [VStr "toy_faiss_db"]) /\
    h !! l2 = Some (ODict [(KStr "vector_db_ids", VRef l1)]) /\
    h !! l3 = Some (ODict [(KStr "name", VStr "rag-dogs"); (KStr "args", VRef l2)]) /\
    h !! l4 = Some (OList [VRef l3]) /\
    h !! l = Some (ODict [(KStr "toolgroups", VRef l4)]).




(* ===================================================================== *)
(** ** Notions used to describe the code beyond its contract *)
(* ===================================================================== *)

(** A text made of printable ASCII characters only (space to tilde). *)
Fixpoint printable (s : string) : bool :=
  match s with
  | EmptyString => true
  | String c rest =>
      (32 <=? N_of_ascii c)%N && (N_of_ascii c <=? 126)%N && printable rest
  end.

(** A text of ASCII characters only (codes below 128): its UTF-8 encoding
    is the text itself, one byte for each character. *)
Fixpoint ascii_text (s : string) : bool :=
  match s with
  | EmptyString => true
  | String c rest => (N_of_ascii c <? 128)%N && ascii_text rest
  end.

(** The event a client reads off a frame that has a data field only. *)
Definition data_event (s : string) : event :=
  {| ev_type := None; ev_data := s; ev_id := None |}.

(** A run of slashes. *)
Fixpoint slashes (k : nat) : string :=
  match k with
  | O => ""
  | S k' => String "/" (slashes k')
  end.

(** What may follow a number in a JSON text for the reader to stop at its
    end: the end of the text, or a character that is no digit, no point
    and no exponent mark. *)
Definition number_ends (rest : string) : bool :=
  match rest with
  | EmptyString => true
  | String c _ =>
      negb (Ascii.eqb c "." || Ascii.eqb c "e" || Ascii.eqb c "E"
            || match digit_value c with Some _ => true | None => false end)
  end.

(** A text whose first character can start a value: it is there, it is no
    white space and it closes no array or object. *)
Definition starts_value (s : string) : bool :=
  match s with
  | EmptyString => false
  | String c _ => negb (is_ws c) && negb (Ascii.eqb c "]") && negb (Ascii.eqb c "}")
  end.

(** The paths an application has a route for. *)
Definition registered_paths {G} (a : FastApi.FastAPI G) : list string :=
  map FastApi.route_path (FastApi.routes a).

(** No route of the application accepts the path. *)
Definition no_route_accepts {G} (a : FastApi.FastAPI G) (path : string) : bool :=
  forallb (fun pattern => negb (FastApi.path_matches pattern path))
          (registered_paths a).

(** [reads_as s t]: wherever the text [s] stands in a JSON text, the reader
    takes exactly [s] and returns [t], given calls enough for its length. *)
Definition reads_as (s : string) (t : json) : Prop :=
  forall rest n,
    number_ends rest = true ->
    (String.length s < n)%nat ->
    read_value n (s +:+ rest) = Some (t, rest).

(** A member as the encoder writes it: the key as a string, a colon and a
    space, the value. *)
Definition member_text (part : string) (m : string * json) : Prop :=
  exists v,
    part = encode_basestring_ascii (fst m) +:+ key_separator +:+ v /\
    reads_as v (snd m) /\ starts_value v = true.

(* ===================================================================== *)
(** ** Allocation and the payload in the store *)
(* ===================================================================== *)

Section Store.

(** Split what is known of a fresh identity into disequalities. *)
Ltac split_fresh :=
  repeat match goal with
         | F : _ ∉ _ ∪ _ |- _ => apply not_elem_of_union in F; destruct F
         | F : _ ∉ {[ _ ]} |- _ => apply not_elem_of_singleton in F
         end.

Lemma alloc_spec o w :
  exists l, alloc o w = Ok (VRef l, World (<[l := o]> (heap w)) (globals w) (files w))
            /\ (l ∉ dom (heap w)).
Proof.
  exists (fresh (dom (heap w))). split; [reflexivity | apply is_fresh].
Qed.

Lemma build_data_spec w :
  exists l w',
    build_data w = Ok (VRef l, w') /\
    payload_at (heap w') l /\
    (l ∉ dom (heap w)) /\
    (forall l0, l0 ∈ dom (heap w) -> heap w' !! l0 = heap w !! l0) /\
    globals w' = globals w /\
    files w' = files w.
Proof.
  unfold build_data, bind.
  destruct (alloc_spec (OList [VStr "toy_faiss_db"]) w) as (l1 & -> & F1).
  set (w1 := World _ _ _).
  destruct (alloc_spec (ODict [(KStr "vector_db_ids", VRef l1)]) w1) as (l2 & -> & F2).
  set (w2 := World _ _ _).
  destruct (alloc_spec (ODict [(KStr "name", VStr "rag-dogs"); (KStr "args", VRef l2)]) w2)
    as (l3 & -> & F3).
  set (w3 := World _ _ _).
  destruct (alloc_spec (OList [VRef l3]) w3) as (l4 & -> & F4).
  set (w4 := World _ _ _).
  destruct (alloc_spec (ODict [(KStr "toolgroups", VRef l4)]) w4) as (l5 & -> & F5).
  subst w4 w3 w2 w1. cbn [heap globals files] in *.
  rewrite !dom_insert_L in *. split_fresh.
  eexists _, _. split; [reflexivity |]. cbn [heap globals files].
  split; [| split; [done | split; [| done]]].
  - exists l1, l2, l3, l4. split.
    + repeat (apply NoDup_cons; split;
              [rewrite ?elem_of_cons, elem_of_nil; intuition congruence |]).
      apply NoDup_nil_2.
    + repeat split;
        repeat (rewrite lookup_insert_ne by done); apply lookup_insert_eq.
  - intros l0 Hl0.
    repeat (rewrite lookup_insert_ne by (intros ->; contradiction)). reflexivity.
Qed.

End Store.

(* ===================================================================== *)
(** ** Encoding the payload *)
(* ===================================================================== *)

Section Encoding.

Lemma not_in_markers (l : loc) (markers : list loc) :
  NoDup (l :: markers) -> bool_decide (l ∈ markers) = false.
Proof.
  intros Hnd. apply bool_decide_eq_false_2.
  by apply NoDup_cons in Hnd as [? _].
Qed.

Lemma iterencode_str depth h markers s :
  iterencode depth h markers (VStr s) = Ok (encode_basestring_ascii s).
Proof. by destruct depth. Qed.

(** Five nested calls are enough to encode the payload, whatever else the
    store holds. *)
Lemma iterencode_payload h l depth :
  payload_at h l ->
  iterencode (5 + depth) h [] (VRef l) = Ok payload.
Proof.
  intros (l1 & l2 & l3 & l4 & Hnd & H1 & H2 & H3 & H4 & H5).
  assert (bool_decide (l4 ∈ [l]) = false) as M4.
  { apply not_in_markers. do 3 apply NoDup_cons in Hnd as [_ Hnd]. exact Hnd. }
  assert (bool_decide (l3 ∈ [l4; l]) = false) as M3.
  { apply not_in_markers. do 2 apply NoDup_cons in Hnd as [_ Hnd]. exact Hnd. }
  assert (bool_decide (l2 ∈ [l3; l4; l]) = false) as M2.
  { apply not_in_markers. apply NoDup_cons in Hnd as [_ Hnd]. exact Hnd. }
  assert (bool_decide (l1 ∈ [l2; l3; l4; l]) = false) as M1.
  { apply not_in_markers. exact Hnd. }
  cbn [Nat.add iterencode]. rewrite H5. cbn [bool_decide decide_rel mapM fst snd encode_key].
  rewrite bool_decide_eq_false_2 by apply not_elem_of_nil.
  cbn [mapM fst snd encode_key iterencode]. rewrite H4, M4.
  cbn [mapM fst snd encode_key iterencode]. rewrite H3, M3.
  cbn [mapM fst snd encode_key iterencode]. rewrite H2, M2.
  cbn [mapM fst snd encode_key iterencode]. rewrite H1, M1.
  cbn [mapM]. rewrite iterencode_str. reflexivity.
Qed.

Lemma dumps_payload h l : payload_at h l -> dumps h (VRef l) = Ok payload.
Proof. intros Hp. exact (iterencode_payload h l 995 Hp). Qed.

(** The store value at the payload is the payload's JSON value. *)
Lemma reify_payload h l depth :
  payload_at h l -> reify (5 + depth) h (VRef l) = Some payload_json.
Proof.
  intros (l1 & l2 & l3 & l4 & _ & H1 & H2 & H3 & H4 & H5).
  cbn [Nat.add reify]. rewrite H5. cbn [mapM_opt fst snd encode_key reify fmap option_fmap option_map].
  rewrite H4. cbn [mapM_opt fst snd encode_key reify fmap option_fmap option_map].
  rewrite H3. cbn [mapM_opt fst snd encode_key reify fmap option_fmap option_map].
  rewrite H2. cbn [mapM_opt fst snd encode_key reify fmap option_fmap option_map].
  rewrite H1. cbn [mapM_opt]. by destruct depth.
Qed.

End Encoding.

(* ===================================================================== *)
(** ** Encoded texts are single lines *)
(* ===================================================================== *)

Section Framing.

Lemma line_free_app a b : line_free (a +:+ b) = line_free a && line_free b.
Proof.
  induction a as [| c a IH]; [reflexivity |].
  simpl. rewrite IH. apply andb_assoc.
Qed.

Lemma append_assoc a b c : (a +:+ b) +:+ c = a +:+ b +:+ c.
Proof.
  induction a as [| x a IH]; [reflexivity |].
  change (String x ((a +:+ b) +:+ c) = String x (a +:+ b +:+ c)). by rewrite IH.
Qed.

Lemma escape_char_line_free c : line_free (escape_char c) = true.
Proof. destruct c as [[] [] [] [] [] [] [] []]; vm_compute; reflexivity. Qed.

Lemma escape_ascii_line_free s : line_free (escape_ascii s) = true.
Proof.
  induction s as [| c s IH]; [reflexivity |].
  cbn [escape_ascii]. by rewrite line_free_app, escape_char_line_free, IH.
Qed.

Lemma encode_basestring_ascii_line_free s :
  line_free (encode_basestring_ascii s) = true.
Proof.
  unfold encode_basestring_ascii.
  by rewrite !line_free_app, escape_ascii_line_free.
Qed.

Lemma pretty_N_char_line_free x s :
  line_free (String (pretty_N_char x) s) = line_free s.
Proof.
  unfold pretty_N_char. by repeat case_match.
Qed.

Lemma pretty_N_go_line_free x : forall s,
  line_free (pretty_N_go x s) = line_free s.
Proof.
  induction (N.lt_wf_0 x) as [x _ IH]; intros s.
  destruct (decide (0 < x)%N) as [Hpos | Hzero].
  - rewrite pretty_N_go_step by done.
    rewrite IH by (by apply N.div_lt). apply pretty_N_char_line_free.
  - assert (x = 0%N) as -> by lia. by rewrite pretty_N_go_0.
Qed.

Lemma pretty_N_line_free (x : N) : line_free (pretty x) = true.
Proof.
  unfold pretty, pretty_N. case_decide; [reflexivity |].
  by rewrite pretty_N_go_line_free.
Qed.

Lemma int_repr_ok z s : int_repr z = Ok s -> s = intstr z.
Proof. unfold int_repr. case_match; [discriminate | by intros [= <-]]. Qed.

Lemma intstr_line_free z : line_free (intstr z) = true.
Proof.
  unfold intstr, pretty, pretty_Z. destruct z as [| p | p]; [reflexivity | |].
  - apply pretty_N_line_free.
  - rewrite line_free_app. apply pretty_N_line_free.
Qed.

Lemma join_line_free parts :
  Forall (fun p => line_free p = true) parts ->
  line_free (join item_separator parts) = true.
Proof.
  induction 1 as [| p parts Hp Hparts IH]; [reflexivity |].
  destruct parts as [| q parts]; [exact Hp |].
  change (join item_separator (p :: q :: parts))
    with (p +:+ item_separator +:+ join item_separator (q :: parts)).
  by rewrite !line_free_app, Hp, IH.
Qed.

Lemma mapM_Forall {A B} (f : A -> result B) (P : B -> Prop) l : forall bs,
  (forall a b, f a = Ok b -> P b) ->
  mapM f l = Ok bs -> Forall P bs.
Proof.
  induction l as [| a l IH]; intros bs Hf; cbn [mapM].
  - intros [= <-]. constructor.
  - destruct (f a) as [b |] eqn:Hfa; [| discriminate].
    destruct (mapM f l) as [bs' |] eqn:Hl; [| discriminate].
    intros [= <-]. constructor; [by eapply Hf | by apply IH].
Qed.

(** Whatever [json.dumps] returns holds no line break. *)
Lemma iterencode_line_free depth : forall h markers o s,
  iterencode depth h markers o = Ok s -> line_free s = true.
Proof.
  induction depth as [| depth IH]; intros h markers o s;
    (destruct o as [| [] | z | t | l]; cbn [iterencode];
     [by intros [= <-] | by intros [= <-] | by intros [= <-]
     | intros ->%int_repr_ok; apply intstr_line_free
     | intros [= <-]; apply encode_basestring_ascii_line_free |]).
  - discriminate.
  - destruct (h !! l) as [[[| v items] | [| kv items] | cls] |];
      try discriminate; try (by intros [= <-]).
    + case_bool_decide; [discriminate |].
      destruct (mapM _ _) as [parts |] eqn:Hparts; [| discriminate].
      intros [= <-]. rewrite !line_free_app, andb_true_r. cbn [line_free andb negb].
      apply join_line_free. eapply mapM_Forall; [| exact Hparts].
      intros a b. apply IH.
    + case_bool_decide; [discriminate |].
      destruct (mapM _ _) as [parts |] eqn:Hparts; [| discriminate].
      intros [= <-]. rewrite !line_free_app, andb_true_r. cbn [line_free andb negb].
      apply join_line_free. eapply mapM_Forall; [| exact Hparts].
      intros [k v'] b. cbn [fst snd].
      destruct (encode_key k) as [ks |]; [| discriminate].
      destruct (iterencode depth h (l :: markers) v') as [vs |] eqn:Hv; [| discriminate].
      intros [= <-].
      by rewrite !line_free_app, encode_basestring_ascii_line_free, (IH _ _ _ _ Hv).
Qed.

Lemma split_lines_aux_line_free s : forall cur,
  line_free s = true -> split_lines_aux cur s = [String.rev_app cur s].
Proof.
  induction s as [| c s IH]; intros cur Hs; cbn [split_lines_aux]; [reflexivity |].
  cbn [line_free] in Hs. apply andb_true_iff in Hs as [Hc Hs].
  apply negb_true_iff, orb_false_iff in Hc as [-> ->].
  by rewrite (IH _ Hs).
Qed.

Lemma split_lines_line_free s : line_free s = true -> split_lines s = [s].
Proof. apply split_lines_aux_line_free. Qed.

(** An item without a line break is framed as one data line and the empty
    line that ends the event. *)
Lemma ensure_bytes_line_free s separator :
  line_free s = true ->
  ensure_bytes s separator = "data: " +:+ s +:+ separator +:+ separator.
Proof.
  intros Hs. unfold ensure_bytes, encode, event_of_str, write_lines.
  cbn [sse_comment sse_id sse_event sse_data sse_retry sse_sep].
  rewrite (split_lines_line_free s Hs).
  change (("data: " +:+ s +:+ separator) +:+ separator
          = "data: " +:+ s +:+ separator +:+ separator).
  rewrite (append_assoc "data: " (s +:+ separator) separator).
  rewrite (append_assoc s separator separator). reflexivity.
Qed.

Lemma dumps_line_free h o s : dumps h o = Ok s -> line_free s = true.
Proof. unfold dumps. apply (iterencode_line_free recursion_limit h [] o s). Qed.

End Framing.

(* ===================================================================== *)
(** ** The generator and the stream *)
(* ===================================================================== *)

Section Generator.

Lemma range_next_remaining it i it' :
  range_next it = Some (i, it') ->
  range_remaining it = S (range_remaining it').
Proof.
  unfold range_next, range_remaining. destruct (Z.ltb_spec (ri_index it) (ri_stop it));
    [| discriminate].
  intros [= <- <-]. cbn [ri_index ri_stop].
  rewrite <- Z2Nat.inj_succ by lia. f_equal. lia.
Qed.

Lemma range_next_exhausted it :
  range_next it = None <-> range_remaining it = O.
Proof.
  unfold range_next, range_remaining.
  destruct (Z.ltb_spec (ri_index it) (ri_stop it)); split; intros;
    first [reflexivity | discriminate | lia | exfalso; lia].
Qed.

Lemma genexpr_next_eq h (g : genexpr) :
  next h g =
    match range_next (gi_iter g) with
    | None => Stop
    | Some (_, it') =>
        match dumps h (gi_data g) with
        | Ok s => Yield s (GenExpr it' (gi_data g))
        | Raise e => Fail e
        end
    end.
Proof. reflexivity. Qed.

(** Every item a generator expression over [json.dumps] yields is framed
    as one data line and the empty line that ends the event. *)
Lemma genexpr_item_frame h (g g' : genexpr) s separator :
  next h g = Yield s g' ->
  ensure_bytes s separator = "data: " +:+ s +:+ separator +:+ separator.
Proof.
  rewrite genexpr_next_eq.
  destruct (range_next (gi_iter g)) as [[i it'] |]; [| discriminate].
  destruct (dumps h (gi_data g)) as [t |] eqn:Ht; [| discriminate].
  intros [= <- _]. apply ensure_bytes_line_free.
  exact (dumps_line_free h (gi_data g) t Ht).
Qed.

(** A generator expression over a range stops within one call more than
    the range has items left, whatever its element expression does. *)
Lemma genexpr_stream_ends h separator (n : nat) : forall g : genexpr,
  (range_remaining (gi_iter g) < n)%nat ->
  snd (stream_body n h separator g) <> Running.
Proof.
  induction n as [| n IH]; intros g Hlt; [lia |].
  cbn [stream_body]. rewrite genexpr_next_eq.
  destruct (range_next (gi_iter g)) as [[i it'] |] eqn:Hnext; [| discriminate].
  destruct (dumps h (gi_data g)); [| discriminate].
  apply range_next_remaining in Hnext.
  specialize (IH (GenExpr it' (gi_data g))). cbn [gi_iter] in IH.
  destruct (stream_body n h separator _) as [msgs out]. cbn [snd] in *.
  apply IH. lia.
Qed.

(** Where the element expression succeeds, the stream is as many events as
    the range has items left, then the closing message. *)
Lemma genexpr_stream_exact h separator s (n : nat) : forall g : genexpr,
  dumps h (gi_data g) = Ok s ->
  (range_remaining (gi_iter g) < n)%nat ->
  stream_body n h separator g =
    ((repeat (ResponseBody (ensure_bytes s separator) true) (range_remaining (gi_iter g))
       ++ [ResponseBody "" false])%list, Closed).
Proof.
  induction n as [| n IH]; intros g Hs Hlt; [lia |].
  cbn [stream_body]. rewrite genexpr_next_eq.
  destruct (range_next (gi_iter g)) as [[i it'] |] eqn:Hnext.
  - rewrite Hs. rewrite (range_next_remaining _ _ _ Hnext) in *.
    rewrite (IH (GenExpr it' (gi_data g))); cbn [gi_iter gi_data]; [reflexivity | done | lia].
  - apply range_next_exhausted in Hnext. rewrite Hnext. reflexivity.
Qed.

Lemma frame_eq : ensure_bytes payload DEFAULT_SEPARATOR = frame.
Proof. vm_compute. reflexivity. Qed.

(** Streaming the response the handler builds. *)
Lemma stream_response_sse h l n :
  payload_at h l ->
  stream_response (S (S n)) h (new_EventSourceResponse (GenExpr (range 1) (VRef l)))
  = (sse_messages, Closed).
Proof.
  intros Hp. unfold stream_response, new_EventSourceResponse.
  cbn [Sse.sep body_iterator status_code raw_headers].
  assert (range_remaining (gi_iter (GenExpr (range 1) (VRef l))) < S (S n))%nat as Hlt
    by (change (range_remaining _) with 1%nat; lia).
  rewrite (genexpr_stream_exact h DEFAULT_SEPARATOR payload (S (S n))
             (GenExpr (range 1) (VRef l)) (dumps_payload h l Hp) Hlt).
  rewrite frame_eq. reflexivity.
Qed.

End Generator.

(* ===================================================================== *)
(** ** The handler and the route *)
(* ===================================================================== *)

Section Handler.

Lemma mcp_context_spec w :
  exists l w',
    mcp_context w = Ok (new_EventSourceResponse (GenExpr (range 1) (VRef l)), w') /\
    payload_at (heap w') l /\
    (l ∉ dom (heap w)) /\
    (forall l0, l0 ∈ dom (heap w) -> heap w' !! l0 = heap w !! l0) /\
    globals w' = globals w /\
    files w' = files w.
Proof.
  destruct (build_data_spec w) as (l & w' & Hb & Hrest).
  exists l, w'. split; [| exact Hrest].
  unfold mcp_context, bind. rewrite Hb. reflexivity.
Qed.

(** A request for [GET /sse] runs the handler and streams its response. *)
Lemma handle_get_sse n w query headers body :
  exists l w',
    FastApi.handle_request (S (S n)) app (get_sse query headers body) w
      = (FastApi.Streamed sse_messages Closed, w') /\
    mcp_context w = Ok (new_EventSourceResponse (GenExpr (range 1) (VRef l)), w').
Proof.
  destruct (mcp_context_spec w) as (l & w' & Hm & Hp & _).
  exists l, w'. split; [| exact Hm].
  unfold FastApi.handle_request. cbn [get_sse FastApi.req_method FastApi.req_path].
  change (FastApi.find_route (FastApi.routes app) "GET" "/sse" None)
    with (Some ({| FastApi.route_path := "/sse"; FastApi.route_methods := ["GET"];
                   FastApi.route_handler :=
                     FastApi.AppEndpoint "mcp_context" mcp_context_endpoint |},
                FastApi.MatchFull)).
  cbn [FastApi.route_handler]. unfold FastApi.run_endpoint.
  cbn [mcp_context_endpoint FastApi.ep_params FastApi.ep_call FastApi.solve_dependencies].
  rewrite Hm. rewrite (stream_response_sse _ l n Hp). reflexivity.
Qed.

End Handler.

(* ===================================================================== *)
(** ** The endpoint's contract *)
(* ===================================================================== *)

Section Contract.

Import FastApi.

(** C1.  Every invocation of GET /sse delivers exactly one SSE event and
    the stream is closed right after it: the messages of the response are
    the start, one body carrying the event frame, and the closing message
    with [more_body] false; a client reads exactly one event off the bytes,
    and the stream is not left running. *)
Theorem sse_one_event_then_closed n w query headers body :
  exists msgs,
    fst (handle_request (S (S n)) app (get_sse query headers body) w)
      = Streamed msgs Closed /\
    msgs = [ResponseStart 200 sse_headers; ResponseBody frame true;
            ResponseBody "" false] /\
    length (received_events (body_bytes msgs)) = 1%nat /\
    last msgs = Some (ResponseBody "" false).
Proof.
  destruct (handle_get_sse n w query headers body) as (l & w' & -> & _).
  exists sse_messages. cbn [fst].
  split; [reflexivity |]. split; [reflexivity |].
  split; [vm_compute; reflexivity | reflexivity].
Qed.

(** The payload text, byte by byte. *)
Lemma payload_bytes_eq : bytes_of payload = payload_bytes.
Proof. vm_compute. reflexivity. Qed.

Lemma loads_payload : loads payload = Some payload_json.
Proof. vm_compute. reflexivity. Qed.

Lemma received_sse :
  received_events (body_bytes sse_messages)
  = [{| ev_type := None; ev_data := payload; ev_id := None |}].
Proof. vm_compute. reflexivity. Qed.

(** C2.  The data field of the single event of GET /sse is exactly the
    JSON text of the wire payload, byte for byte; parsing it as JSON gives
    the literal structure with one toolgroup named rag-dogs whose args map
    vector_db_ids to the one-element list of toy_faiss_db, which is also
    the value the handler's dictionary stands for. *)
Theorem sse_event_data_is_payload n w query headers body :
  exists msgs l w',
    fst (handle_request (S (S n)) app (get_sse query headers body) w)
      = Streamed msgs Closed /\
    map ev_data (received_events (body_bytes msgs)) = [payload] /\
    bytes_of payload = payload_bytes /\
    loads payload = Some payload_json /\
    mcp_context w = Ok (new_EventSourceResponse (GenExpr (range 1) (VRef l)), w') /\
    dumps (heap w') (VRef l) = Ok payload /\
    reify 5 (heap w') (VRef l) = Some payload_json.
Proof.
  destruct (handle_get_sse n w query headers body) as (l & w' & -> & Hm).
  destruct (mcp_context_spec w) as (l0 & w0 & Hm0 & Hp & _).
  rewrite Hm in Hm0. injection Hm0 as <- <-.
  exists sse_messages, l, w'. cbn [fst].
  split; [reflexivity |]. split; [by rewrite received_sse |].
  split; [apply payload_bytes_eq |]. split; [apply loads_payload |].
  split; [exact Hm |]. split; [by apply dumps_payload |].
  exact (reify_payload (heap w') l 0 Hp).
Qed.

Lemma serve_all_get_sse n : forall reqs w,
  forallb is_get_sse reqs = true ->
  fst (serve_all (S (S n)) app reqs w)
  = repeat (Streamed sse_messages Closed) (length reqs).
Proof.
  induction reqs as [| req reqs IH]; intros w Hall; [reflexivity |].
  cbn [forallb] in Hall. apply andb_true_iff in Hall as [Hreq Hall].
  unfold is_get_sse in Hreq. apply andb_true_iff in Hreq as [Hm Hp].
  apply String.eqb_eq in Hm, Hp.
  destruct req as [m p q hd b]. cbn [req_method req_path] in Hm, Hp. subst m p.
  cbn [serve_all].
  destruct (handle_get_sse n w q hd b) as (l & w' & Hh & _).
  change {| req_method := "GET"; req_path := "/sse"; req_query := q;
            req_headers := hd; req_body := b |} with (get_sse q hd b).
  rewrite Hh. specialize (IH w' Hall).
  destruct (serve_all (S (S n)) app reqs w') as [rs w'']. cbn [fst] in *.
  rewrite IH. reflexivity.
Qed.

(** C3.  For any number of sequential invocations of GET /sse, whatever
    else the requests carry and whatever the state they start from, there
    is one response per request, any two responses are identical (same
    status, same headers, same body messages, same bytes), and every one
    has status 200. *)
Theorem sse_sequential_responses_identical n reqs w
    (Hall : forallb is_get_sse reqs = true) :
  length (fst (serve_all (S (S n)) app reqs w)) = length reqs /\
  (forall i j ri rj,
     fst (serve_all (S (S n)) app reqs w) !! i = Some ri ->
     fst (serve_all (S (S n)) app reqs w) !! j = Some rj ->
     ri = rj) /\
  Forall (fun r => reply_status r = Some 200 /\ r = Streamed sse_messages Closed)
         (fst (serve_all (S (S n)) app reqs w)).
Proof.
  rewrite (serve_all_get_sse n reqs w Hall).
  split; [apply repeat_length |]. split.
  - intros i j ri rj Hi Hj.
    apply list_elem_of_lookup_2, list_elem_of_In, repeat_spec in Hi.
    apply list_elem_of_lookup_2, list_elem_of_In, repeat_spec in Hj.
    congruence.
  - apply Forall_forall. intros r Hr.
    apply list_elem_of_In, repeat_spec in Hr. subst r. split; reflexivity.
Qed.

(** Three requests in a row that differ in query, headers and body,
    served from a state that already holds an object. *)
Lemma sse_sequential_responses_identical_witness :
  let reqs := [get_sse [] [] "";
               get_sse [("session", "42")] [("accept", "text/event-stream")] "";
               get_sse [] [("last-event-id", "7")] "ignored"] in
  let w := World {[ 1%positive := OList [VInt 7] ]} {[ "cache" := VRef 1%positive ]} ∅ in
  forallb is_get_sse reqs = true /\
  (length (fst (serve_all 2 app reqs w)) = length reqs /\
   (forall i j ri rj,
      fst (serve_all 2 app reqs w) !! i = Some ri ->
      fst (serve_all 2 app reqs w) !! j = Some rj ->
      ri = rj) /\
   Forall (fun r => reply_status r = Some 200 /\ r = Streamed sse_messages Closed)
          (fst (serve_all 2 app reqs w))).
Proof.
  split; [reflexivity |].
  apply (sse_sequential_responses_identical 0). reflexivity.
Defined.

(** C4.  Every response to GET /sse has status 200 and its content type
    is text/event-stream: the response object carries that media type, and
    the header sent names it, followed by the charset parameter the
    framework adds to text media types. *)
Theorem sse_status_and_content_type n w query headers body :
  exists hdrs rest v resp w',
    fst (handle_request (S (S n)) app (get_sse query headers body) w)
      = Streamed (ResponseStart 200 hdrs :: rest) Closed /\
    reply_status (fst (handle_request (S (S n)) app (get_sse query headers body) w))
      = Some 200 /\
    header_value "content-type" hdrs = Some v /\
    header_media_type v = "text/event-stream" /\
    v = "text/event-stream; charset=utf-8" /\
    mcp_context w = Ok (resp, w') /\
    status_code resp = 200 /\
    media_type resp = "text/event-stream".
Proof.
  destruct (handle_get_sse n w query headers body) as (l & w' & -> & Hm).
  exists sse_headers, [ResponseBody frame true; ResponseBody "" false],
    "text/event-stream; charset=utf-8",
    (new_EventSourceResponse (GenExpr (range 1) (VRef l))), w'.
  cbn [fst]. repeat split; first [exact Hm | reflexivity].
Qed.

(** The encoder does fail on other data: an object it has no rule for, a
    container that holds itself, a key that is no string or number. *)
Example dumps_unsupported :
  dumps {[ 1%positive := OOpaque "set" ]} (VRef 1%positive)
  = Raise (TypeError "Object of type set is not JSON serializable").
Proof. vm_compute. reflexivity. Qed.

Example dumps_circular :
  dumps {[ 1%positive := OList [VRef 1%positive] ]} (VRef 1%positive)
  = Raise (ValueError "Circular reference detected").
Proof. vm_compute. reflexivity. Qed.

Example dumps_bad_key :
  dumps {[ 1%positive := ODict [(KOther "tuple", VInt 1)] ]} (VRef 1%positive)
  = Raise (TypeError "keys must be str, int, float, bool or None, not tuple").
Proof. vm_compute. reflexivity. Qed.

(** C5.  The handler of GET /sse has no error branch: on every invocation
    it returns a response and raises nothing, the serialization of its
    payload succeeds, and the reply is neither an error status nor a stream
    cut by an exception. *)
Theorem sse_handler_never_fails n w query headers body :
  (exists resp w',
     mcp_context w = Ok (resp, w') /\
     dumps (heap w') (gi_data (body_iterator resp)) = Ok payload) /\
  (forall e, mcp_context w <> Raise e) /\
  (forall code,
     fst (handle_request (S (S n)) app (get_sse query headers body) w)
     <> ErrorStatus code) /\
  (forall msgs e,
     fst (handle_request (S (S n)) app (get_sse query headers body) w)
     <> Streamed msgs (Aborted e)).
Proof.
  destruct (handle_get_sse n w query headers body) as (l & w' & -> & Hm).
  destruct (mcp_context_spec w) as (l0 & w0 & Hm0 & Hp & _).
  rewrite Hm. split; [| repeat split; intros; discriminate].
  rewrite Hm in Hm0. injection Hm0 as <- <-.
  eexists _, _. split; [reflexivity |]. by apply dumps_payload.
Qed.

(** C6.  The single event of GET /sse is a data-only event: the event
    object built from the yielded text has no event name, no id, no retry
    and no comment; its frame is one data line and the empty line that ends
    the event; the event a client reads has neither type nor id; and
    whatever text the generator yields, from whatever store, is framed as
    one data line and nothing else. *)
Theorem sse_event_is_data_only n w query headers body :
  let e := event_of_str payload DEFAULT_SEPARATOR in
  exists msgs,
    fst (handle_request (S (S n)) app (get_sse query headers body) w)
      = Streamed msgs Closed /\
    msgs !! 1%nat = Some (ResponseBody (encode e) true) /\
    sse_event e = None /\ sse_id e = None /\
    sse_retry e = None /\ sse_comment e = None /\
    stream_lines (body_bytes msgs) = ["data: " +:+ payload; ""] /\
    received_events (body_bytes msgs)
      = [{| ev_type := None; ev_data := payload; ev_id := None |}] /\
    (forall h (g g' : genexpr) s separator,
       next h g = Yield s g' ->
       ensure_bytes s separator = "data: " +:+ s +:+ separator +:+ separator).
Proof.
  intros e.
  destruct (handle_get_sse n w query headers body) as (l & w' & -> & _).
  exists sse_messages. cbn [fst].
  split; [reflexivity |].
  split; [unfold sse_messages; cbn [lookup list_lookup]; by rewrite <- frame_eq |].
  do 4 (split; [reflexivity |]).
  split; [vm_compute; reflexivity |].
  split; [apply received_sse | apply genexpr_item_frame].
Qed.

Lemma closed_world_decide w : closed_worldb w = true -> closed_world w.
Proof.
  unfold closed_worldb. intros H. apply andb_true_iff in H as [Hh Hg].
  apply bool_decide_eq_true_1 in Hh, Hg. split.
  - intros l o Hl l' Hin.
    exact (proj1 (Forall_forall _ _) (Hh l o Hl) l' Hin).
  - intros x v Hx l Hin.
    exact (proj1 (Forall_forall _ _) (Hg x v Hx) l Hin).
Qed.

(** Objects reached from an old object through the new store are old, and
    were reached before. *)
Lemma reachable_frame (h h' : gmap loc obj) :
  closed h ->
  (forall l, l ∈ dom h -> h' !! l = h !! l) ->
  forall r l, reachable h' r l -> r ∈ dom h -> l ∈ dom h /\ reachable h r l.
Proof.
  intros Hc Hframe r l Hreach.
  induction Hreach as [l | l o l' l'' Hl Hin _ IH]; intros Hdom.
  - split; [exact Hdom | constructor].
  - rewrite (Hframe l Hdom) in Hl.
    destruct (IH (Hc l o Hl l' Hin)) as [Hd Hr].
    split; [exact Hd | by eapply reach_step].
Qed.

(** C7.  The handler of GET /sse reads and writes no state outside the
    request: its reply is the same from every state; every object that
    existed before is unchanged, as are the module-level variables and the
    files; the payload dictionary is a new object on every request; and
    after the request nothing that is live is new, so the payload and its
    parts are garbage and no later request can observe them. *)
Theorem sse_request_leaves_state_untouched n w query headers body
    (Hclosed : closed_world w) :
  let w' := snd (handle_request (S (S n)) app (get_sse query headers body) w) in
  (forall w2,
     fst (handle_request (S (S n)) app (get_sse query headers body) w2)
     = fst (handle_request (S (S n)) app (get_sse query headers body) w)) /\
  (forall l, l ∈ dom (heap w) -> heap w' !! l = heap w !! l) /\
  globals w' = globals w /\
  files w' = files w /\
  (exists l,
     mcp_context w = Ok (new_EventSourceResponse (GenExpr (range 1) (VRef l)), w') /\
     (l ∉ dom (heap w)) /\ ~ live w' l) /\
  (forall l, live w' l -> l ∈ dom (heap w) /\ live w l).
Proof.
  intros w'. subst w'.
  destruct (handle_get_sse n w query headers body) as (l & w' & Hh & Hm).
  destruct (mcp_context_spec w) as (l0 & w0 & Hm0 & _ & Hfresh & Hframe & Hg & Hf).
  rewrite Hm in Hm0. injection Hm0 as <- <-.
  rewrite Hh. cbn [fst snd].
  assert (forall l1, live w' l1 -> l1 ∈ dom (heap w) /\ live w l1) as Hlive.
  { intros l1 (x & v & r & Hx & Hr & Hreach).
    destruct Hclosed as [Hc Hroots]. rewrite Hg in Hx.
    destruct (reachable_frame (heap w) (heap w') Hc Hframe r l1 Hreach
                (Hroots x v Hx r Hr)) as [Hd Hreach'].
    split; [exact Hd |]. by exists x, v, r. }
  split.
  { intros w2. by destruct (handle_get_sse n w2 query headers body) as (? & ? & -> & _). }
  split; [exact Hframe |]. split; [exact Hg |]. split; [exact Hf |]. split.
  - exists l. split; [exact Hm |]. split; [exact Hfresh |].
    intros Hl. by apply Hlive in Hl as [? _].
  - exact Hlive.
Qed.

(** A state that holds a list, named by a module-level variable, and a
    file. *)
Lemma sse_request_leaves_state_untouched_witness :
  let w := World {[ 1%positive := OList [VInt 7; VRef 2%positive];
                    2%positive := ODict [(KStr "k", VNone)] ]}
                 {[ "cache" := VRef 1%positive ]}
                 {[ "notes.txt" := "kept" ]} in
  let w' := snd (handle_request 2 app (get_sse [] [("accept", "*/*")] "") w) in
  closed_world w /\
  ((forall w2,
     fst (handle_request 2 app (get_sse [] [("accept", "*/*")] "") w2)
     = fst (handle_request 2 app (get_sse [] [("accept", "*/*")] "") w)) /\
  (forall l, l ∈ dom (heap w) -> heap w' !! l = heap w !! l) /\
  globals w' = globals w /\
  files w' = files w /\
  (exists l,
     mcp_context w = Ok (new_EventSourceResponse (GenExpr (range 1) (VRef l)), w') /\
     (l ∉ dom (heap w)) /\ ~ live w' l) /\
  (forall l, live w' l -> l ∈ dom (heap w) /\ live w l)).
Proof.
  intros w w'.
  assert (closed_world w) as Hc.
  { apply closed_world_decide. vm_compute. reflexivity. }
  split; [exact Hc |].
  exact (sse_request_leaves_state_untouched 0 w [] [("accept", "*/*")] "" Hc).
Defined.

(** C8.  GET /sse takes no parameters, and its response does not depend
    on the request: the handler declares no parameter, and any two requests
    to the route, whatever their query, headers and body and whatever the
    state they meet, get the same reply, hence the same events. *)
Theorem sse_response_independent_of_request n w1 w2 q1 h1 b1 q2 h2 b2 :
  ep_params mcp_context_endpoint = [] /\
  fst (handle_request (S (S n)) app (get_sse q1 h1 b1) w1)
  = fst (handle_request (S (S n)) app (get_sse q2 h2 b2) w2) /\
  fst (handle_request (S (S n)) app (get_sse q1 h1 b1) w1)
  = Streamed sse_messages Closed.
Proof.
  destruct (handle_get_sse n w1 q1 h1 b1) as (l1 & w1' & -> & _).
  destruct (handle_get_sse n w2 q2 h2 b2) as (l2 & w2' & -> & _).
  repeat split.
Qed.

(** Decide every comparison of a method or a path in the goal. *)
Ltac case_strings :=
  repeat match goal with
         | |- context [String.eqb ?a ?b] =>
             destruct (String.eqb_spec a b); try subst; try congruence;
             cbn [andb orb negb existsb]
         end.

(** Write the patterns of the routes out as texts. *)
Ltac spell_patterns :=
  unfold path_matches;
  repeat match goal with
         | |- context [?a +:+ String LF ""] =>
             let r := eval cbv in (a +:+ String LF "") in
             change (a +:+ String LF "") with r
         end.



(** Whatever the request, only the store may change, and only by growing. *)
Lemma handle_request_frame n req w :
  let w' := snd (handle_request n app req w) in
  files w' = files w /\ globals w' = globals w /\
  (forall l, l ∈ dom (heap w) -> heap w' !! l = heap w !! l).
Proof.
  destruct req as [m p q hd b].
  destruct (mcp_context_spec w) as (l & w1 & Hm & _ & _ & Hframe & Hg & Hf).
  unfold handle_request, app, get, new_FastAPI.
  cbn [routes req_method req_path List.app find_route]. unfold matches.
  cbn [route_path route_methods route_handler]. spell_patterns.
  case_strings; cbn [snd route_handler]; try (repeat split; reflexivity).
  all: unfold run_endpoint;
    cbn [mcp_context_endpoint ep_params ep_call solve_dependencies];
    rewrite Hm;
    destruct (stream_response n (heap w1) _) as [msgs out]; cbn [snd];
    repeat split; assumption.
Qed.



(** Requests the application's code does not answer. *)
Example post_sse_not_allowed w :
  fst (handle_request 2 app
         {| req_method := "POST"; req_path := "/sse"; req_query := [];
            req_headers := []; req_body := "" |} w) = ErrorStatus 405.
Proof. reflexivity. Qed.

Example head_sse_not_allowed w :
  fst (handle_request 2 app
         {| req_method := "HEAD"; req_path := "/sse"; req_query := [];
            req_headers := []; req_body := "" |} w) = ErrorStatus 405.
Proof. reflexivity. Qed.

Example get_sse_slash_redirected w :
  fst (handle_request 2 app
         {| req_method := "GET"; req_path := "/sse/"; req_query := [];
            req_headers := []; req_body := "" |} w) = Redirect "/sse".
Proof. reflexivity. Qed.

Example get_root_not_found w :
  fst (handle_request 2 app
         {| req_method := "GET"; req_path := "/"; req_query := [];
            req_headers := []; req_body := "" |} w) = ErrorStatus 404.
Proof. reflexivity. Qed.

(** C10.  The event source of the response is the generator over
    [range(1)]: resumed on the handler's store it yields the serialized
    payload once and then stops; the handler returns, the stream of the
    response closes within two resumptions, and, more generally, a
    generator expression over a range never runs past the items its range
    has left. *)
Theorem sse_generator_yields_once_then_stops w :
  exists l w' g1,
    mcp_context w = Ok (new_EventSourceResponse (GenExpr (range 1) (VRef l)), w') /\
    next (heap w') (GenExpr (range 1) (VRef l)) = Yield payload g1 /\
    next (heap w') g1 = Stop /\
    (forall n,
       stream_response (S (S n)) (heap w')
         (new_EventSourceResponse (GenExpr (range 1) (VRef l)))
       = (sse_messages, Closed)) /\
    (forall h separator n (g : genexpr),
       (range_remaining (gi_iter g) < n)%nat ->
       snd (stream_body n h separator g) <> Running).
Proof.
  destruct (mcp_context_spec w) as (l & w' & Hm & Hp & _).
  exists l, w', (GenExpr (RangeIter 1 1) (VRef l)).
  split; [exact Hm |]. split.
  - rewrite genexpr_next_eq. cbn [gi_iter gi_data].
    change (range_next (range 1)) with (Some (0, RangeIter 1 1)).
    cbn iota. by rewrite (dumps_payload _ _ Hp).
  - split; [reflexivity |]. split.
    + intros n. by apply stream_response_sse.
    + intros h separator n g. apply genexpr_stream_ends.
Qed.

(** With one resumption observed the event is out and the stream is still
    open: it is the second resumption that closes it. *)
Example stream_after_one_resumption :
  match mcp_context (World ∅ ∅ ∅) with
  | Ok (resp, w') =>
      stream_response 1 (heap w') resp
      = ([ResponseStart 200 sse_headers; ResponseBody frame true], Running)
  | Raise _ => False
  end.
Proof. vm_compute. reflexivity. Qed.

(** The same generator expression over [range(3)] would send three events
    before it closes the stream. *)
Example three_items_three_events :
  match build_data (World ∅ ∅ ∅) with
  | Ok (data, w') =>
      stream_body 4 (heap w') DEFAULT_SEPARATOR (GenExpr (range 3) data)
      = ([ResponseBody frame true; ResponseBody frame true; ResponseBody frame true;
          ResponseBody "" false], Closed)
  | Raise _ => False
  end.
Proof. vm_compute. reflexivity. Qed.

End Contract.

(* ===================================================================== *)
(** ** The encoder's output alphabet *)
(* ===================================================================== *)

Section Alphabet.

Lemma printable_app a b : printable (a +:+ b) = printable a && printable b.
Proof.
  induction a as [| c a IH]; [reflexivity |].
  change (printable (String c (a +:+ b)) = printable (String c a) && printable b).
  cbn [printable]. rewrite IH. apply andb_assoc.
Qed.

Lemma printable_line_free s : printable s = true -> line_free s = true.
Proof.
  induction s as [| c s IH]; [reflexivity |]. cbn [printable line_free].
  intros H. apply andb_true_iff in H as [Hc Hs]. rewrite (IH Hs), andb_true_r.
  destruct c as [[] [] [] [] [] [] [] []]; vm_compute in Hc |- *; congruence.
Qed.

Lemma escape_char_printable c : printable (escape_char c) = true.
Proof. destruct c as [[] [] [] [] [] [] [] []]; vm_compute; reflexivity. Qed.

Lemma escape_ascii_printable s : printable (escape_ascii s) = true.
Proof.
  induction s as [| c s IH]; [reflexivity |].
  cbn [escape_ascii]. by rewrite printable_app, escape_char_printable, IH.
Qed.

Lemma encode_basestring_ascii_printable s :
  printable (encode_basestring_ascii s) = true.
Proof.
  unfold encode_basestring_ascii.
  by rewrite !printable_app, escape_ascii_printable.
Qed.

Lemma pretty_N_char_printable x s :
  printable (String (pretty_N_char x) s) = printable s.
Proof. unfold pretty_N_char. by repeat case_match. Qed.

Lemma pretty_N_go_printable x : forall s,
  printable (pretty_N_go x s) = printable s.
Proof.
  induction (N.lt_wf_0 x) as [x _ IH]; intros s.
  destruct (decide (0 < x)%N) as [Hpos | Hzero].
  - rewrite pretty_N_go_step by done.
    rewrite IH by (by apply N.div_lt). apply pretty_N_char_printable.
  - assert (x = 0%N) as -> by lia. by rewrite pretty_N_go_0.
Qed.

Lemma intstr_printable z : printable (intstr z) = true.
Proof.
  assert (forall x : N, printable (pretty x) = true) as HN.
  { intros x. unfold pretty, pretty_N. case_decide; [reflexivity |].
    by rewrite pretty_N_go_printable. }
  unfold intstr, pretty, pretty_Z. destruct z as [| p | p]; [reflexivity | |].
  - apply HN.
  - rewrite printable_app. apply HN.
Qed.

Lemma join_printable parts :
  Forall (fun p => printable p = true) parts ->
  printable (join item_separator parts) = true.
Proof.
  induction 1 as [| p parts Hp Hparts IH]; [reflexivity |].
  destruct parts as [| q parts]; [exact Hp |].
  change (join item_separator (p :: q :: parts))
    with (p +:+ item_separator +:+ join item_separator (q :: parts)).
  by rewrite !printable_app, Hp, IH.
Qed.

Lemma iterencode_printable depth : forall h markers o s,
  iterencode depth h markers o = Ok s -> printable s = true.
Proof.
  induction depth as [| depth IH]; intros h markers o s;
    (destruct o as [| [] | z | t | l]; cbn [iterencode];
     [by intros [= <-] | by intros [= <-] | by intros [= <-]
     | intros ->%int_repr_ok; apply intstr_printable
     | intros [= <-]; apply encode_basestring_ascii_printable |]).
  - discriminate.
  - destruct (h !! l) as [[[| v items] | [| kv items] | cls] |];
      try discriminate; try (by intros [= <-]).
    + case_bool_decide; [discriminate |].
      destruct (mapM _ _) as [parts |] eqn:Hparts; [| discriminate].
      intros [= <-]. rewrite !printable_app, andb_true_r. cbn [printable andb].
      apply join_printable. eapply mapM_Forall; [| exact Hparts].
      intros a b. apply IH.
    + case_bool_decide; [discriminate |].
      destruct (mapM _ _) as [parts |] eqn:Hparts; [| discriminate].
      intros [= <-]. rewrite !printable_app, andb_true_r. cbn [printable andb].
      apply join_printable. eapply mapM_Forall; [| exact Hparts].
      intros [k v'] b. cbn [fst snd].
      destruct (encode_key k) as [ks |]; [| discriminate].
      destruct (iterencode depth h (l :: markers) v') as [vs |] eqn:Hv; [| discriminate].
      intros [= <-].
      by rewrite !printable_app, encode_basestring_ascii_printable, (IH _ _ _ _ Hv).
Qed.

Lemma dumps_printable h o s : dumps h o = Ok s -> printable s = true.
Proof. unfold dumps. apply (iterencode_printable recursion_limit h [] o s). Qed.

(** X1.  Whatever value and store [json.dumps] is given, a text it returns
    is made of printable ASCII characters only (every code from 32 to
    126), so it holds no line break and its UTF-8 bytes are its
    characters. *)
Theorem dumps_output_is_printable_ascii h o s
    (Hdumps : dumps h o = Ok s) :
  printable s = true /\ line_free s = true /\
  Forall (fun b => (32 <= b <= 126)%N) (bytes_of s).
Proof.
  assert (printable s = true) as Hp by exact (dumps_printable h o s Hdumps).
  split; [exact Hp |]. split; [by apply printable_line_free |].
  clear Hdumps. induction s as [| c s IH]; [constructor |].
  cbn [printable] in Hp. apply andb_true_iff in Hp as [Hc Hs].
  apply andb_true_iff in Hc as [Hlo Hhi].
  apply N.leb_le in Hlo, Hhi.
  constructor; [lia | by apply IH].
Qed.

(** A list that holds a negative number, a text with an accented letter, a
    line break, a quote and a control character, and a dictionary keyed by
    a number. *)
Lemma dumps_output_is_printable_ascii_witness :
  let h : gmap loc obj :=
    {[ 1%positive := OList [VInt (-12); VStr (String (ascii_of_N 233)
                              (String (ascii_of_N 10) (String (ascii_of_N 34)
                              (String (ascii_of_N 1) "x")))); VRef 2%positive];
       2%positive := ODict [(KInt 7, VNone); (KStr "k", VBool true)] ]} in
  let s := "[-12, " +:+ quote +:+ "\u00e9\n\" +:+ quote +:+ "\u0001x" +:+ quote
           +:+ ", {" +:+ quote +:+ "7" +:+ quote +:+ ": null, "
           +:+ quote +:+ "k" +:+ quote +:+ ": true}]" in
  dumps h (VRef 1%positive) = Ok s /\
  (printable s = true /\ line_free s = true /\
   Forall (fun b => (32 <= b <= 126)%N) (bytes_of s)).
Proof.
  intros h s.
  assert (dumps h (VRef 1%positive) = Ok s) as Hd by (vm_compute; reflexivity).
  split; [exact Hd |].
  exact (dumps_output_is_printable_ascii h (VRef 1%positive) s Hd).
Defined.

End Alphabet.

(* ===================================================================== *)
(** ** Frames written by the server, read back by a client *)
(* ===================================================================== *)

Section RoundTrip.

Lemma split_lines_aux_break s rest : forall cur,
  line_free s = true ->
  split_lines_aux cur (s +:+ String CR (String LF rest))
  = String.rev_app cur s :: split_lines_aux "" rest.
Proof.
  induction s as [| c s IH]; intros cur Hs.
  - reflexivity.
  - change (String c s +:+ String CR (String LF rest))
      with (String c (s +:+ String CR (String LF rest))).
    cbn [line_free] in Hs. apply andb_true_iff in Hs as [Hc Hs].
    apply negb_true_iff, orb_false_iff in Hc as [Hcr Hlf].
    cbn [split_lines_aux]. rewrite Hcr, Hlf. by rewrite (IH _ Hs).
Qed.

Lemma split_lines_aux_nonempty s : forall cur, split_lines_aux cur s <> [].
Proof.
  induction s as [| c s IH]; intros cur; cbn [split_lines_aux]; [discriminate |].
  destruct (Ascii.eqb c CR).
  - destruct s as [| c' s']; [discriminate |]. by destruct (Ascii.eqb c' LF).
  - destruct (Ascii.eqb c LF); [discriminate | apply IH].
Qed.

Lemma removelast_cons {A} (a : A) l : l <> [] -> removelast (a :: l) = a :: removelast l.
Proof. by destruct l. Qed.

(** The lines of a stream that starts with the frame of a text without
    line break: the data line, the empty line, then the lines of the
    rest. *)
Lemma stream_lines_frame s rest :
  line_free s = true ->
  stream_lines (ensure_bytes s DEFAULT_SEPARATOR +:+ rest)
  = ("data: " +:+ s) :: "" :: stream_lines rest.
Proof.
  intros Hs. rewrite (ensure_bytes_line_free s DEFAULT_SEPARATOR Hs).
  unfold stream_lines, split_lines.
  assert (line_free ("data: " +:+ s) = true) as Hd by (by rewrite line_free_app, Hs).
  rewrite <- (append_assoc "data: " s (DEFAULT_SEPARATOR +:+ DEFAULT_SEPARATOR)).
  rewrite (append_assoc ("data: " +:+ s) (DEFAULT_SEPARATOR +:+ DEFAULT_SEPARATOR) rest).
  change ((DEFAULT_SEPARATOR +:+ DEFAULT_SEPARATOR) +:+ rest)
    with (String CR (String LF ("" +:+ String CR (String LF rest)))).
  rewrite (split_lines_aux_break ("data: " +:+ s) _ "" Hd).
  rewrite (split_lines_aux_break "" rest "" eq_refl).
  rewrite !removelast_cons
    by first [apply split_lines_aux_nonempty | discriminate].
  reflexivity.
Qed.

Lemma received_events_frame s rest :
  line_free s = true ->
  received_events (ensure_bytes s DEFAULT_SEPARATOR +:+ rest)
  = data_event s :: received_events rest.
Proof.
  intros Hs. unfold received_events. rewrite (stream_lines_frame s rest Hs).
  change ("data: " +:+ s)
    with (String "d" (String "a" (String "t" (String "a" (String ":" (String " " s)))))).
  reflexivity.
Qed.

Lemma body_bytes_cons b more msgs :
  body_bytes (ResponseBody b more :: msgs) = b +:+ body_bytes msgs.
Proof.
  unfold body_bytes.
  change ((ResponseBody b more :: msgs) ≫= _) with (b :: (msgs ≫= (fun m =>
            match m with
            | ResponseBody b0 _ => [b0]
            | ResponseStart _ _ => []
            end))).
  destruct (msgs ≫= _) as [| x l]; cbn [String.concat].
  - clear. induction b as [| c b IH]; [reflexivity |].
    change (String c b = String c (b +:+ "")). by rewrite <- IH.
  - reflexivity.
Qed.

Lemma received_events_repeat s k :
  line_free s = true ->
  received_events
    (body_bytes (repeat (ResponseBody (ensure_bytes s DEFAULT_SEPARATOR) true) k
                   ++ [ResponseBody "" false])%list)
  = repeat (data_event s) k.
Proof.
  intros Hs. induction k as [| k IH]; [reflexivity |].
  cbn [repeat List.app]. rewrite body_bytes_cons.
  rewrite (received_events_frame s _ Hs). by rewrite IH.
Qed.

Lemma ascii_text_app a b : ascii_text (a +:+ b) = ascii_text a && ascii_text b.
Proof.
  induction a as [| c a IH]; [reflexivity |].
  change (ascii_text (String c (a +:+ b)) = ascii_text (String c a) && ascii_text b).
  cbn [ascii_text]. rewrite IH. apply andb_assoc.
Qed.

(** X2.  An ASCII text without line break that the response frames makes
    a frame of ASCII characters, so the bytes sent are the frame's
    characters; in a stream of ASCII bytes a client reads the frame back as
    exactly one event carrying that text, without type and without id,
    and reads the rest of the stream as if the frame had not been
    there. *)
Theorem frame_round_trip s rest
    (Hascii : ascii_text s = true)
    (Hs : line_free s = true)
    (Hrest : ascii_text rest = true) :
  ascii_text (ensure_bytes s DEFAULT_SEPARATOR +:+ rest) = true /\
  received_events (ensure_bytes s DEFAULT_SEPARATOR +:+ rest)
  = data_event s :: received_events rest.
Proof.
  split; [| exact (received_events_frame s rest Hs)].
  rewrite (ensure_bytes_line_free s DEFAULT_SEPARATOR Hs).
  by rewrite !ascii_text_app, Hascii, Hrest.
Qed.

(** A text with a colon, a leading space and quotes in it, followed by the
    frame of another event. *)
Lemma frame_round_trip_witness :
  let s := " id: 7 " +:+ quote +:+ "x" +:+ quote in
  let rest := ensure_bytes "second" DEFAULT_SEPARATOR in
  (ascii_text s = true /\ line_free s = true /\ ascii_text rest = true) /\
  (ascii_text (ensure_bytes s DEFAULT_SEPARATOR +:+ rest) = true /\
   received_events (ensure_bytes s DEFAULT_SEPARATOR +:+ rest)
   = data_event s :: received_events rest).
Proof.
  intros s rest. split; [repeat split |].
  exact (frame_round_trip s rest eq_refl eq_refl eq_refl).
Defined.

(** X3.  A generator expression over [range(k)] whose element expression
    [json.dumps(data)] succeeds makes the response send as many identical
    events as the range has items (none when [k] is zero or negative) and
    then close: a client reads exactly that many events, each carrying the
    encoded text. *)
Theorem genexpr_sends_one_event_per_item h v s k n
    (Hdumps : dumps h v = Ok s)
    (Hn : (Z.to_nat k < n)%nat) :
  exists msgs,
    stream_body n h DEFAULT_SEPARATOR (GenExpr (range k) v) = (msgs, Closed) /\
    received_events (body_bytes msgs) = repeat (data_event s) (Z.to_nat k) /\
    last msgs = Some (ResponseBody "" false).
Proof.
  assert (range_remaining (gi_iter (GenExpr (range k) v)) = Z.to_nat k) as Hrem.
  { unfold range_remaining, range. cbn [gi_iter ri_index ri_stop]. f_equal. lia. }
  eexists. split.
  - apply (genexpr_stream_exact h DEFAULT_SEPARATOR s n (GenExpr (range k) v) Hdumps).
    rewrite Hrem. exact Hn.
  - rewrite Hrem. split.
    + apply received_events_repeat. exact (dumps_line_free h v s Hdumps).
    + apply last_snoc.
Qed.

(** Three items over a list of two numbers, and an empty range. *)
Lemma genexpr_sends_one_event_per_item_witness :
  let h : gmap loc obj := {[ 1%positive := OList [VInt 1; VInt 2] ]} in
  (dumps h (VRef 1%positive) = Ok "[1, 2]" /\ (Z.to_nat 3 < 4)%nat) /\
  (exists msgs,
     stream_body 4 h DEFAULT_SEPARATOR (GenExpr (range 3) (VRef 1%positive))
       = (msgs, Closed) /\
     received_events (body_bytes msgs) = repeat (data_event "[1, 2]") (Z.to_nat 3) /\
     last msgs = Some (ResponseBody "" false)) /\
  (exists msgs,
     stream_body 1 h DEFAULT_SEPARATOR (GenExpr (range (-2)) (VRef 1%positive))
       = (msgs, Closed) /\
     received_events (body_bytes msgs) = repeat (data_event "[1, 2]") (Z.to_nat (-2)) /\
     last msgs = Some (ResponseBody "" false)).
Proof.
  intros h.
  assert (dumps h (VRef 1%positive) = Ok "[1, 2]") as Hd by (vm_compute; reflexivity).
  split; [split; [exact Hd | vm_compute; lia] |]. split.
  - apply (genexpr_sends_one_event_per_item h (VRef 1%positive) "[1, 2]" 3 4 Hd).
    vm_compute. lia.
  - apply (genexpr_sends_one_event_per_item h (VRef 1%positive) "[1, 2]" (-2) 1 Hd).
    vm_compute. lia.
Defined.

End RoundTrip.

(* ===================================================================== *)
(** ** Serialization inside the generator: late, and on the current store *)
(* ===================================================================== *)

Section LateSerialization.

Import FastApi.

(** X4.  [json.dumps] runs when the generator is resumed, after the
    response has started: if it raises on the first item, the start message
    with status 200 has been sent, no body follows, the stream is cut
    without its closing message, and the reply is that cut stream, not an
    error status. *)
Theorem dumps_failure_cuts_started_stream n w v e k req
    (Hdumps : dumps (heap w) v = Raise e)
    (Hk : 0 < k) :
  stream_response (S n) (heap w) (new_EventSourceResponse (GenExpr (range k) v))
    = ([ResponseStart 200 sse_headers], Aborted e) /\
  run_endpoint (S n)
    {| ep_params := [];
       ep_call := fun _ => ret (new_EventSourceResponse (GenExpr (range k) v)) |}
    req w
    = (Streamed [ResponseStart 200 sse_headers] (Aborted e), w).
Proof.
  assert (stream_response (S n) (heap w)
            (new_EventSourceResponse (GenExpr (range k) v))
          = ([ResponseStart 200 sse_headers], Aborted e)) as Hstream.
  { unfold stream_response, new_EventSourceResponse.
    cbn [Sse.sep body_iterator status_code raw_headers stream_body].
    rewrite genexpr_next_eq. cbn [gi_iter gi_data].
    unfold range_next, range. cbn [ri_index ri_stop].
    destruct (Z.ltb_spec 0 k); [| lia]. by rewrite Hdumps. }
  split; [exact Hstream |].
  unfold run_endpoint. cbn [ep_params ep_call solve_dependencies].
  unfold ret. by rewrite Hstream.
Qed.

(** A generator over a set, which the encoder has no rule for. *)
Lemma dumps_failure_cuts_started_stream_witness :
  let w := World {[ 1%positive := OOpaque "set" ]} ∅ ∅ in
  let e := TypeError "Object of type set is not JSON serializable" in
  (dumps (heap w) (VRef 1%positive) = Raise e /\ 0 < 1) /\
  (stream_response 2 (heap w)
     (new_EventSourceResponse (GenExpr (range 1) (VRef 1%positive)))
     = ([ResponseStart 200 sse_headers], Aborted e) /\
   run_endpoint 2
     {| ep_params := [];
        ep_call := fun _ =>
          ret (new_EventSourceResponse (GenExpr (range 1) (VRef 1%positive))) |}
     (get_sse [] [] "") w
     = (Streamed [ResponseStart 200 sse_headers] (Aborted e), w)).
Proof.
  intros w e.
  assert (dumps (heap w) (VRef 1%positive) = Raise e) as Hd by (vm_compute; reflexivity).
  split; [split; [exact Hd | lia] |].
  exact (dumps_failure_cuts_started_stream 1 w (VRef 1%positive) e 1
           (get_sse [] [] "") Hd ltac:(lia)).
Defined.

Lemma mapM_weaken {A B} (f g : A -> result B) l : forall bs,
  (forall a b, f a = Ok b -> g a = Ok b) ->
  mapM f l = Ok bs -> mapM g l = Ok bs.
Proof.
  induction l as [| a l IH]; intros bs Hfg; cbn [mapM]; [done |].
  destruct (f a) as [b |] eqn:Hfa; [| discriminate].
  destruct (mapM f l) as [bs' |] eqn:Hl; [| discriminate].
  intros [= <-]. by rewrite (Hfg a b Hfa), (IH bs' Hfg eq_refl).
Qed.

Lemma iterencode_weaken (h h' : gmap loc obj) depth :
  h ⊆ h' ->
  forall markers o s,
    iterencode depth h markers o = Ok s -> iterencode depth h' markers o = Ok s.
Proof.
  intros Hsub. induction depth as [| depth IH]; intros markers o s;
    (destruct o as [| b | z | t | l]; [done | done | done | done |]).
  - discriminate.
  - cbn [iterencode]. destruct (h !! l) as [x |] eqn:Hl; [| discriminate].
    rewrite (lookup_weaken h h' l x Hl Hsub).
    destruct x as [[| v items] | [| kv items] | cls]; try done.
    + case_bool_decide; [done |].
      destruct (mapM _ (v :: items)) as [parts |] eqn:Hparts; [| discriminate].
      intros [= <-].
      by rewrite (mapM_weaken _ (iterencode depth h' (l :: markers)) _ parts
                    (IH (l :: markers)) Hparts).
    + case_bool_decide; [done |].
      destruct (mapM _ (kv :: items)) as [parts |] eqn:Hparts; [| discriminate].
      intros [= <-].
      eapply mapM_weaken in Hparts as ->; [reflexivity |].
      intros [k v'] b. cbn [fst snd].
      destruct (encode_key k) as [ks |]; [| discriminate].
      destruct (iterencode depth h (l :: markers) v') as [vs |] eqn:Hv; [| discriminate].
      intros [= <-]. by rewrite (IH _ _ _ Hv).
Qed.

Lemma dumps_weaken (h h' : gmap loc obj) o s :
  h ⊆ h' -> dumps h o = Ok s -> dumps h' o = Ok s.
Proof. unfold dumps. intros Hsub. by apply iterencode_weaken. Qed.

(** X5.  What [json.dumps] returns for a value does not change when the
    store grows: objects allocated later, by this request or another,
    leave the text of an encodable value as it was. *)
Theorem dumps_stable_under_allocation (h h' : gmap loc obj) o s
    (Hsub : h ⊆ h')
    (Hdumps : dumps h o = Ok s) :
  dumps h' o = Ok s.
Proof. exact (dumps_weaken h h' o s Hsub Hdumps). Qed.

(** A list encoded before and after a dictionary is allocated beside it. *)
Lemma dumps_stable_under_allocation_witness :
  let h : gmap loc obj := {[ 1%positive := OList [VStr "a"; VInt 2] ]} in
  let h' : gmap loc obj := <[ 2%positive := ODict [(KStr "k", VRef 1%positive)] ]> h in
  let s := "[" +:+ quote +:+ "a" +:+ quote +:+ ", 2]" in
  (h ⊆ h' /\ dumps h (VRef 1%positive) = Ok s) /\
  dumps h' (VRef 1%positive) = Ok s.
Proof.
  intros h h' s.
  assert (h ⊆ h') as Hsub by (by apply insert_subseteq).
  assert (dumps h (VRef 1%positive) = Ok s) as Hd by (vm_compute; reflexivity).
  split; [split; [exact Hsub | exact Hd] |].
  exact (dumps_stable_under_allocation h h' (VRef 1%positive) s Hsub Hd).
Defined.

End LateSerialization.

(* ===================================================================== *)
(** ** Requests that arrive while a response is pending *)
(* ===================================================================== *)

Section Interleaving.

Import FastApi.

Lemma payload_at_frame (h h' : gmap loc obj) l :
  (forall l0, l0 ∈ dom h -> h' !! l0 = h !! l0) ->
  payload_at h l -> payload_at h' l.
Proof.
  intros Hframe (l1 & l2 & l3 & l4 & Hnd & H1 & H2 & H3 & H4 & H5).
  assert (forall l0 x, h !! l0 = Some x -> h' !! l0 = Some x) as Hkeep.
  { intros l0 x Hl0. rewrite Hframe; [done |]. apply elem_of_dom. by exists x. }
  exists l1, l2, l3, l4. repeat split; [exact Hnd | by apply Hkeep ..].
Qed.

Lemma serve_all_frame n reqs : forall w,
  forall l, l ∈ dom (heap w) ->
    heap (snd (serve_all n app reqs w)) !! l = heap w !! l.
Proof.
  induction reqs as [| req reqs IH]; intros w l Hl; [reflexivity |].
  cbn [serve_all].
  destruct (handle_request_frame n req w) as (_ & _ & Hframe).
  destruct (handle_request n app req w) as [r w1]. cbn [snd] in Hframe.
  specialize (IH w1 l).
  destruct (serve_all n app reqs w1) as [rs w2]. cbn [snd] in *.
  rewrite IH; [by apply Hframe |].
  apply elem_of_dom. rewrite (Hframe l Hl). by apply elem_of_dom.
Qed.

(** X6.  A response the handler has returned streams the same event
    however many other requests, of any method and path, are served before
    it is streamed: what they allocate does not reach the dictionary its
    generator holds. *)
Theorem pending_response_unaffected_by_later_requests n m w reqs :
  exists l w1,
    mcp_context w = Ok (new_EventSourceResponse (GenExpr (range 1) (VRef l)), w1) /\
    stream_response (S (S n)) (heap (snd (serve_all m app reqs w1)))
      (new_EventSourceResponse (GenExpr (range 1) (VRef l)))
    = (sse_messages, Closed).
Proof.
  destruct (mcp_context_spec w) as (l & w1 & Hm & Hp & _).
  exists l, w1. split; [exact Hm |].
  apply stream_response_sse.
  apply (payload_at_frame (heap w1)); [| exact Hp].
  intros l0 Hl0. by apply serve_all_frame.
Qed.

End Interleaving.

(* ===================================================================== *)
(** ** Requests the route does not serve *)
(* ===================================================================== *)

Section OtherRequests.

Import FastApi.

(** Decide every comparison of a method or a path in the goal. *)
Ltac compare_strings :=
  repeat match goal with
         | |- context [String.eqb ?a ?b] =>
             destruct (String.eqb_spec a b); try subst; try congruence;
             cbn [andb orb negb existsb]
         end.

(** Write the patterns of the routes out as texts. *)
Ltac spell_route_patterns :=
  unfold path_matches;
  repeat match goal with
         | |- context [?a +:+ String LF ""] =>
             let r := eval cbv in (a +:+ String LF "") in
             change (a +:+ String LF "") with r
         end.

Ltac open_routing :=
  unfold handle_request, app, get, new_FastAPI;
  cbn [routes req_method req_path List.app find_route]; unfold matches;
  cbn [route_path route_methods route_handler]; spell_route_patterns.

(** X7.  A request to /sse with any method other than GET (HEAD
    included) is answered 405: the handler is not run and the state is
    left as it was. *)
Theorem sse_other_method_not_allowed n method query headers body w
    (Hmethod : method <> "GET") :
  handle_request n app
    {| req_method := method; req_path := "/sse"; req_query := query;
       req_headers := headers; req_body := body |} w
  = (ErrorStatus 405, w).
Proof. open_routing. compare_strings; reflexivity. Qed.

Lemma sse_other_method_not_allowed_witness :
  "HEAD" <> "GET" /\
  handle_request 2 app
    {| req_method := "HEAD"; req_path := "/sse"; req_query := [("a", "b")];
       req_headers := []; req_body := "" |} (World ∅ ∅ ∅)
  = (ErrorStatus 405, World ∅ ∅ ∅).
Proof.
  assert ("HEAD" <> "GET") as H by discriminate.
  split; [exact H |].
  exact (sse_other_method_not_allowed 2 "HEAD" [("a", "b")] [] "" (World ∅ ∅ ∅) H).
Defined.

(** A path no route's pattern accepts finds no route, whatever the
    method. *)
Lemma find_route_none method path :
  no_route_accepts app path = true ->
  find_route (routes app) method path None = None.
Proof.
  unfold no_route_accepts, registered_paths, app, get, new_FastAPI.
  cbn [routes map List.app route_path forallb find_route]. unfold matches.
  cbn [route_path]. rewrite !andb_true_iff, !negb_true_iff.
  intros (H1 & H2 & H3 & H4 & H5 & _). by rewrite H1, H2, H3, H4, H5.
Qed.

(** X8.  A request whose path no route's pattern accepts (a pattern
    accepts its path and its path followed by one line feed), and whose
    path with the trailing slash added or removed none accepts either, is
    answered 404 whatever its method, and the state is left as it was. *)
Theorem unknown_path_not_found n method path query headers body w
    (Hpath : no_route_accepts app path = true)
    (Hredirect : no_route_accepts app (redirect_path path) = true) :
  handle_request n app
    {| req_method := method; req_path := path; req_query := query;
       req_headers := headers; req_body := body |} w
  = (ErrorStatus 404, w).
Proof.
  unfold handle_request. cbn [req_method req_path].
  rewrite (find_route_none method path Hpath).
  rewrite (find_route_none method (redirect_path path) Hredirect).
  by destruct (negb (String.eqb path "/")).
Qed.

(** A path that has no route; the path /sse followed by a line feed does
    not meet the hypothesis, the route for /sse accepts it. *)
Lemma unknown_path_not_found_witness :
  (no_route_accepts app "/events" = true /\
   no_route_accepts app (redirect_path "/events") = true) /\
  no_route_accepts app ("/sse" +:+ String LF "") = false /\
  handle_request 2 app
    {| req_method := "GET"; req_path := "/events"; req_query := [];
       req_headers := []; req_body := "" |} (World ∅ ∅ ∅)
  = (ErrorStatus 404, World ∅ ∅ ∅).
Proof.
  assert (no_route_accepts app "/events" = true) as H1 by reflexivity.
  assert (no_route_accepts app (redirect_path "/events") = true) as H2 by reflexivity.
  split; [split; [exact H1 | exact H2] |]. split; [reflexivity |].
  exact (unknown_path_not_found 2 "GET" "/events" [] [] "" (World ∅ ∅ ∅) H1 H2).
Defined.

Lemma rstrip_slashes k : rstrip_slash (slashes k) = "".
Proof.
  induction k as [| k IH]; [reflexivity |].
  cbn [slashes rstrip_slash]. by rewrite IH.
Qed.

Lemma rev_app_slashes k : forall acc,
  exists t, String.rev_app (slashes k) (String "/" acc) = String "/" t.
Proof.
  induction k as [| k IH]; intros acc; [by exists acc |].
  cbn [slashes String.rev_app]. apply IH.
Qed.

Lemma ends_with_slash_slashes s k : ends_with_slash (s +:+ slashes (S k)) = true.
Proof.
  unfold ends_with_slash, String.rev. generalize "" as acc.
  induction s as [| c s IH]; intros acc.
  - change ("" +:+ slashes (S k)) with (String "/" (slashes k)).
    cbn [String.rev_app]. by destruct (rev_app_slashes k acc) as [t ->].
  - change (String c s +:+ slashes (S k)) with (String c (s +:+ slashes (S k))).
    cbn [String.rev_app]. apply IH.
Qed.

Lemma redirect_path_sse_slashes k :
  redirect_path ("/sse" +:+ slashes (S k)) = "/sse".
Proof.
  unfold redirect_path. rewrite ends_with_slash_slashes.
  change ("/sse" +:+ slashes (S k))
    with (String "/" (String "s" (String "s" (String "e" (slashes (S k)))))).
  cbn [rstrip_slash]. rewrite rstrip_slashes. reflexivity.
Qed.

(** X9.  A request for /sse followed by one or more slashes is not
    served by the handler: whatever its method, it is answered by a
    redirect to /sse and the state is left as it was. *)
Theorem sse_trailing_slash_redirected n method k query headers body w :
  handle_request n app
    {| req_method := method; req_path := "/sse" +:+ slashes (S k);
       req_query := query; req_headers := headers; req_body := body |} w
  = (Redirect "/sse", w) /\
  app_endpoint_called app
    {| req_method := method; req_path := "/sse" +:+ slashes (S k);
       req_query := query; req_headers := headers; req_body := body |}
  = None.
Proof.
  assert (no_route_accepts app ("/sse" +:+ slashes (S k)) = true) as Hno.
  { change ("/sse" +:+ slashes (S k))
      with (String "/" (String "s" (String "s" (String "e" (String "/" (slashes k)))))).
    reflexivity. }
  pose proof (find_route_none method _ Hno) as Hnone.
  split.
  - unfold handle_request. cbn [req_method req_path]. rewrite Hnone.
    rewrite redirect_path_sse_slashes.
    assert (String.eqb ("/sse" +:+ slashes (S k)) "/" = false) as ->.
    { change ("/sse" +:+ slashes (S k))
        with (String "/" (String "s" (String "s" (String "e" (slashes (S k)))))).
      reflexivity. }
    cbn [negb].
    unfold app, get, new_FastAPI.
    cbn [routes List.app find_route]. unfold matches.
    cbn [route_path route_methods route_handler]. spell_route_patterns.
    compare_strings; reflexivity.
  - unfold app_endpoint_called. cbn [req_method req_path]. by rewrite Hnone.
Qed.

End OtherRequests.

(* ===================================================================== *)
(** ** Reading back what the encoder wrote *)
(* ===================================================================== *)

Section JsonRoundTrip.

Lemma append_nil_r s : s +:+ "" = s.
Proof.
  induction s as [| c s IH]; [reflexivity |].
  change (String c (s +:+ "") = String c s). by rewrite IH.
Qed.

Lemma length_append a b :
  String.length (a +:+ b) = (String.length a + String.length b)%nat.
Proof.
  induction a as [| c a IH]; [reflexivity |].
  change (S (String.length (a +:+ b)) = S (String.length a + String.length b)).
  by rewrite IH.
Qed.

(** **** Strings *)

(** The three ways the reader takes one character of a string: as it
    stands, from a two-character escape, from a four-digit escape. *)
Lemma read_string_plain c rest :
  Ascii.eqb c dquote = false -> Ascii.eqb c backslash = false ->
  (N_of_ascii c <? 32)%N = false ->
  read_string (String c rest)
  = match read_string rest with
    | Some (t, r) => Some (String c t, r)
    | None => None
    end.
Proof. intros H1 H2 H3. cbn [read_string]. by rewrite H1, H2, H3. Qed.

Lemma read_string_two e d rest :
  Ascii.eqb e "u" = false -> unescape e = Some d ->
  read_string (String backslash (String e rest))
  = match read_string rest with
    | Some (t, r) => Some (String d t, r)
    | None => None
    end.
Proof.
  intros H1 H2. cbn [read_string].
  change (Ascii.eqb backslash dquote) with false.
  change (Ascii.eqb backslash backslash) with true.
  cbn iota. by rewrite H1, H2.
Qed.

Lemma read_string_four ha hb a b c rest :
  hex_value ha = Some a -> hex_value hb = Some b ->
  ascii_of_N (16 * a + b) = c ->
  read_string (String backslash (String "u" (String "0" (String "0"
                 (String ha (String hb rest))))))
  = match read_string rest with
    | Some (t, r) => Some (String c t, r)
    | None => None
    end.
Proof.
  intros Ha Hb Hc. cbn [read_string].
  change (Ascii.eqb backslash dquote) with false.
  change (Ascii.eqb backslash backslash) with true.
  change (Ascii.eqb "u" "u") with true.
  change (hex_value "0") with (Some 0%N).
  cbn iota. by rewrite Ha, Hb, Hc.
Qed.

Ltac read_escape :=
  match goal with
  | |- read_string (escape_char ?c +:+ ?rest) = _ =>
      let E := eval vm_compute in (escape_char c) in
      let R := eval cbv in (E +:+ rest) in
      change (escape_char c +:+ rest) with R;
      first [ apply read_string_plain
            | apply read_string_two
            | apply read_string_four
                with (a := (N_of_ascii c / 16)%N) (b := (N_of_ascii c mod 16)%N) ];
      vm_compute; reflexivity
  end.

Lemma read_string_escape_char c rest :
  read_string (escape_char c +:+ rest)
  = match read_string rest with
    | Some (t, r) => Some (String c t, r)
    | None => None
    end.
Proof. destruct c as [[] [] [] [] [] [] [] []]; read_escape. Qed.

Lemma read_string_escape_ascii s rest :
  read_string (escape_ascii s +:+ String dquote rest) = Some (s, rest).
Proof.
  induction s as [| c s IH]; [reflexivity |].
  cbn [escape_ascii]. rewrite append_assoc, read_string_escape_char. by rewrite IH.
Qed.

Lemma read_string_encoded s rest :
  exists body,
    encode_basestring_ascii s +:+ rest = String dquote body /\
    read_string body = Some (s, rest).
Proof.
  exists (escape_ascii s +:+ String dquote rest). split.
  - unfold encode_basestring_ascii, quote.
    change (String (ascii_of_N 34) "" +:+ escape_ascii s +:+ String (ascii_of_N 34) "")
      with (String dquote (escape_ascii s +:+ String dquote "")).
    change (String dquote (escape_ascii s +:+ String dquote "") +:+ rest)
      with (String dquote ((escape_ascii s +:+ String dquote "") +:+ rest)).
    by rewrite append_assoc.
  - apply read_string_escape_ascii.
Qed.

(** **** Numbers *)

Lemma digit_value_pretty_N_char d :
  (d < 10)%N -> digit_value (pretty_N_char d) = Some (Z.of_N d).
Proof.
  intros Hd.
  assert (d = 0 \/ d = 1 \/ d = 2 \/ d = 3 \/ d = 4 \/ d = 5 \/ d = 6 \/ d = 7
          \/ d = 8 \/ d = 9)%N as Hcases by lia.
  repeat (destruct Hcases as [-> | Hcases]; [reflexivity |]). by subst.
Qed.

Lemma read_digits_end acc rest :
  number_ends rest = true -> read_digits acc rest = (acc, rest).
Proof.
  destruct rest as [| c rest]; [reflexivity |]. cbn [number_ends read_digits].
  destruct (digit_value c); [| reflexivity].
  rewrite !orb_true_r. discriminate.
Qed.

(** The digits [pretty_N_go] puts before [s]: a first digit that is not
    zero, then digits that read back as the number. *)
Lemma pretty_N_go_digits x :
  (0 < x)%N ->
  forall s, exists d t,
    (0 < d < 10)%N /\
    pretty_N_go x s = String (pretty_N_char d) (t +:+ s) /\
    forall r, read_digits (Z.of_N d) (t +:+ r) = read_digits (Z.of_N x) r.
Proof.
  induction (N.lt_wf_0 x) as [x _ IH]; intros Hx s.
  rewrite pretty_N_go_step by done.
  destruct (decide (x < 10)%N) as [Hsmall | Hbig].
  - exists x, "". rewrite N.div_small, N.mod_small by done.
    rewrite pretty_N_go_0. split; [lia |]. split; reflexivity.
  - assert (0 < x `div` 10)%N as Hq.
    { apply N.div_str_pos. lia. }
    destruct (IH (x `div` 10)%N (N.div_lt x 10 Hx eq_refl) Hq
                (String (pretty_N_char (x `mod` 10)) s))
      as (d & t & Hd & Hgo & Hread).
    exists d, (t +:+ String (pretty_N_char (x `mod` 10)) "").
    split; [exact Hd |]. split.
    + rewrite Hgo. by rewrite append_assoc.
    + intros r. rewrite append_assoc.
      change (String (pretty_N_char (x `mod` 10)) "" +:+ r)
        with (String (pretty_N_char (x `mod` 10)) r).
      rewrite Hread. cbn [read_digits].
      rewrite digit_value_pretty_N_char by (apply N.mod_lt; lia).
      f_equal. rewrite (N.div_mod x 10) at 3 by lia. lia.
Qed.

Lemma read_nat_end (z : Z) r :
  number_ends r = true ->
  match r with
  | String c' _ =>
      if Ascii.eqb c' "." || Ascii.eqb c' "e" || Ascii.eqb c' "E"
         || (match digit_value c' with Some _ => true | None => false end)
      then None else Some (z, r)
  | EmptyString => Some (z, r)
  end = Some (z, r).
Proof.
  destruct r as [| c r]; [reflexivity |]. cbn [number_ends].
  intros H. apply negb_true_iff in H. by rewrite H.
Qed.

Lemma read_nat_pretty_N (x : N) rest :
  number_ends rest = true ->
  read_nat (pretty x +:+ rest) = Some (Z.of_N x, rest).
Proof.
  intros Hrest. unfold pretty, pretty_N. case_decide as Hx.
  - subst x. change ("0" +:+ rest) with (String "0" rest).
    cbn [read_nat]. change (digit_value "0") with (Some 0).
    cbn iota. change (0 =? 0) with true. cbn iota.
    by apply read_nat_end.
  - destruct (pretty_N_go_digits x ltac:(lia) "") as (d & t & Hd & -> & Hread).
    change (String (pretty_N_char d) (t +:+ "") +:+ rest)
      with (String (pretty_N_char d) ((t +:+ "") +:+ rest)).
    rewrite append_nil_r. cbn [read_nat].
    rewrite digit_value_pretty_N_char by lia.
    destruct (Z.eqb_spec (Z.of_N d) 0) as [H0 | _]; [lia |].
    rewrite Hread, (read_digits_end _ _ Hrest).
    by apply read_nat_end.
Qed.

(** **** How the reader branches on the first character *)

Lemma read_value_string n rest :
  read_value (S n) (String dquote rest)
  = match read_string rest with
    | Some (t, r) => Some (JStr t, r)
    | None => None
    end.
Proof. reflexivity. Qed.

Lemma read_value_minus n rest :
  read_value (S n) (String "-" rest)
  = match read_nat rest with
    | Some (z, r) => Some (JInt (- z), r)
    | None => None
    end.
Proof. reflexivity. Qed.

Lemma read_value_array n rest :
  read_value (S n) (String "[" rest)
  = match skip_ws rest with
    | String c' rest' =>
        if Ascii.eqb c' "]" then Some (JArr [], rest')
        else match read_elements n (skip_ws rest) with
             | Some (items, r) => Some (JArr items, r)
             | None => None
             end
    | EmptyString => None
    end.
Proof. reflexivity. Qed.

Lemma read_value_object n rest :
  read_value (S n) (String "{" rest)
  = match skip_ws rest with
    | String c' rest' =>
        if Ascii.eqb c' "}" then Some (JObj [], rest')
        else match read_members n (skip_ws rest) with
             | Some (members, r) => Some (JObj members, r)
             | None => None
             end
    | EmptyString => None
    end.
Proof. reflexivity. Qed.

Lemma read_value_digit n d rest :
  (d < 10)%N ->
  read_value (S n) (String (pretty_N_char d) rest)
  = match read_nat (String (pretty_N_char d) rest) with
    | Some (z, r) => Some (JInt z, r)
    | None => None
    end.
Proof.
  intros Hd.
  assert (d = 0 \/ d = 1 \/ d = 2 \/ d = 3 \/ d = 4 \/ d = 5 \/ d = 6 \/ d = 7
          \/ d = 8 \/ d = 9)%N as Hcases by lia.
  repeat (destruct Hcases as [-> | Hcases]; [reflexivity |]). by subst.
Qed.

Lemma prefix_app p rest : String.prefix p (p +:+ rest) = true.
Proof.
  induction p as [| a p IH]; [by destruct rest |].
  change (String a p +:+ rest) with (String a (p +:+ rest)).
  cbn [String.prefix]. by destruct (ascii_dec a a).
Qed.

Lemma substring_all s : String.substring 0 (String.length s) s = s.
Proof. induction s as [| c s IH]; [reflexivity |]. cbn. by rewrite IH. Qed.

Lemma substring_skip p m rest :
  String.substring (String.length p) m (p +:+ rest) = String.substring 0 m rest.
Proof.
  induction p as [| a p IH]; [reflexivity |].
  change (String a p +:+ rest) with (String a (p +:+ rest)). cbn. exact IH.
Qed.

Lemma strip_prefix_app p rest : strip_prefix p (p +:+ rest) = Some rest.
Proof.
  unfold strip_prefix. rewrite prefix_app, substring_skip, length_append.
  replace (String.length p + String.length rest - String.length p)%nat
    with (String.length rest) by lia.
  by rewrite substring_all.
Qed.

Lemma read_value_null n rest : read_value (S n) ("null" +:+ rest) = Some (JNull, rest).
Proof.
  change (read_value (S n) ("null" +:+ rest))
    with (match strip_prefix "null" ("null" +:+ rest) with
          | Some r => Some (JNull, r)
          | None =>
              match read_nat ("null" +:+ rest) with
              | Some (z, r) => Some (JInt z, r)
              | None => None
              end
          end).
  by rewrite strip_prefix_app.
Qed.

Lemma read_value_true n rest :
  read_value (S n) ("true" +:+ rest) = Some (JBool true, rest).
Proof.
  change (read_value (S n) ("true" +:+ rest))
    with (match strip_prefix "true" ("true" +:+ rest) with
          | Some r => Some (JBool true, r)
          | None =>
              match read_nat ("true" +:+ rest) with
              | Some (z, r) => Some (JInt z, r)
              | None => None
              end
          end).
  by rewrite strip_prefix_app.
Qed.

Lemma read_value_false n rest :
  read_value (S n) ("false" +:+ rest) = Some (JBool false, rest).
Proof.
  change (read_value (S n) ("false" +:+ rest))
    with (match strip_prefix "false" ("false" +:+ rest) with
          | Some r => Some (JBool false, r)
          | None =>
              match read_nat ("false" +:+ rest) with
              | Some (z, r) => Some (JInt z, r)
              | None => None
              end
          end).
  by rewrite strip_prefix_app.
Qed.

(** **** Values without parts *)

Lemma pretty_N_head (x : N) :
  exists d body, (d < 10)%N /\
    forall rest, pretty x +:+ rest = String (pretty_N_char d) (body +:+ rest).
Proof.
  unfold pretty, pretty_N. case_decide as Hx.
  - exists 0%N, "". split; [lia | reflexivity].
  - destruct (pretty_N_go_digits x ltac:(lia) "") as (d & t & Hd & -> & _).
    exists d, t. split; [lia |]. intros rest. by rewrite append_nil_r.
Qed.

Lemma starts_value_digit d rest :
  (d < 10)%N -> starts_value (String (pretty_N_char d) rest) = true.
Proof.
  intros Hd.
  assert (d = 0 \/ d = 1 \/ d = 2 \/ d = 3 \/ d = 4 \/ d = 5 \/ d = 6 \/ d = 7
          \/ d = 8 \/ d = 9)%N as Hcases by lia.
  repeat (destruct Hcases as [-> | Hcases]; [reflexivity |]). by subst.
Qed.

Lemma reads_as_N (x : N) : reads_as (pretty x) (JInt (Z.of_N x)).
Proof.
  intros rest n Hrest Hn. destruct n as [| n]; [lia |].
  destruct (pretty_N_head x) as (d & body & Hd & Hhead).
  rewrite Hhead, read_value_digit by done.
  by rewrite <- Hhead, read_nat_pretty_N.
Qed.

Lemma reads_as_int z : reads_as (intstr z) (JInt z) /\ starts_value (intstr z) = true.
Proof.
  unfold intstr, pretty, pretty_Z. destruct z as [| p | p].
  - split; [exact (reads_as_N 0) | reflexivity].
  - split; [exact (reads_as_N (Npos p)) |].
    destruct (pretty_N_head (Npos p)) as (d & body & Hd & Hhead).
    specialize (Hhead ""). rewrite !append_nil_r in Hhead.
    change (pretty p) with (pretty (Npos p)). rewrite Hhead.
    by apply starts_value_digit.
  - split; [| reflexivity].
    intros rest n Hrest Hn. destruct n as [| n]; [lia |].
    change (("-" +:+ pretty p) +:+ rest) with (String "-" (pretty (Npos p) +:+ rest)).
    by rewrite read_value_minus, read_nat_pretty_N.
Qed.

Lemma reads_as_str s :
  reads_as (encode_basestring_ascii s) (JStr s)
  /\ starts_value (encode_basestring_ascii s) = true.
Proof.
  split.
  - intros rest n _ Hn. destruct n as [| n]; [lia |].
    destruct (read_string_encoded s rest) as (body & -> & Hbody).
    by rewrite read_value_string, Hbody.
  - destruct (read_string_encoded s "") as (body & Heq & _).
    rewrite append_nil_r in Heq. by rewrite Heq.
Qed.

(** **** Values with parts *)

Lemma skip_ws_starts s : starts_value s = true -> skip_ws s = s.
Proof.
  destruct s as [| c s]; [discriminate |]. cbn [starts_value skip_ws].
  intros H. apply andb_true_iff in H as [H _]. apply andb_true_iff in H as [H _].
  apply negb_true_iff in H. by rewrite H.
Qed.

Lemma skip_ws_comma s : skip_ws (String "," s) = String "," s.
Proof. reflexivity. Qed.

Lemma skip_ws_colon s : skip_ws (String ":" s) = String ":" s.
Proof. reflexivity. Qed.

Lemma skip_ws_space s : skip_ws (String " " s) = skip_ws s.
Proof. reflexivity. Qed.

Lemma starts_value_app s r : starts_value s = true -> starts_value (s +:+ r) = true.
Proof. by destruct s. Qed.

Lemma starts_value_join parts :
  parts <> [] ->
  Forall (fun p => starts_value p = true) parts ->
  starts_value (join item_separator parts) = true.
Proof.
  intros Hne Hall. destruct Hall as [| p ps Hp _]; [done |].
  destruct ps as [| q ps]; [exact Hp |].
  change (join item_separator (p :: q :: ps))
    with (p +:+ item_separator +:+ join item_separator (q :: ps)).
  by apply starts_value_app.
Qed.

Lemma length_join_cons p q ps :
  String.length (join item_separator (p :: q :: ps))
  = (String.length p + 2 + String.length (join item_separator (q :: ps)))%nat.
Proof.
  change (join item_separator (p :: q :: ps))
    with (p +:+ item_separator +:+ join item_separator (q :: ps)).
  rewrite !length_append. cbn. lia.
Qed.

Lemma Forall2_left {A B} (R : A -> B -> Prop) (P : A -> Prop) l k :
  Forall2 R l k -> (forall a b, R a b -> P a) -> Forall P l.
Proof. induction 1; intros HR; constructor; eauto. Qed.

Lemma read_elements_step n s :
  read_elements (S n) s
  = match read_value n s with
    | None => None
    | Some (v, r) =>
        match skip_ws r with
        | String c rest =>
            if Ascii.eqb c "," then
              match read_elements n (skip_ws rest) with
              | Some (vs, r') => Some (v :: vs, r')
              | None => None
              end
            else if Ascii.eqb c "]" then Some ([v], rest)
            else None
        | EmptyString => None
        end
    end.
Proof. reflexivity. Qed.

(** The elements of an array: texts read one by one, between commas, up
    to the closing bracket. *)
Lemma read_elements_join parts trees :
  Forall2 (fun p t => reads_as p t /\ starts_value p = true) parts trees ->
  parts <> [] ->
  forall rest n,
    (String.length (join item_separator parts) + 1 < n)%nat ->
    read_elements n (join item_separator parts +:+ String "]" rest)
    = Some (trees, rest).
Proof.
  induction 1 as [| p t ps ts [Hp Hsp] Hrest IH]; intros Hne rest n Hn; [done |].
  destruct n as [| n]; [lia |]. rewrite read_elements_step.
  destruct ps as [| q ps].
  - apply Forall2_nil_inv_l in Hrest as ->.
    change (join item_separator [p]) with p in *.
    rewrite (Hp (String "]" rest) n eq_refl) by lia. reflexivity.
  - rewrite length_join_cons in Hn.
    change (join item_separator (p :: q :: ps))
      with (p +:+ item_separator +:+ join item_separator (q :: ps)).
    rewrite !append_assoc.
    change (item_separator +:+ join item_separator (q :: ps) +:+ String "]" rest)
      with (String "," (String " " (join item_separator (q :: ps) +:+ String "]" rest))).
    rewrite (Hp (String "," (String " "
                   (join item_separator (q :: ps) +:+ String "]" rest))) n eq_refl) by lia.
    rewrite skip_ws_comma. change (Ascii.eqb "," ",") with true. cbn iota.
    rewrite skip_ws_space.
    assert (starts_value (join item_separator (q :: ps)) = true) as Hstart.
    { apply starts_value_join; [done |].
      apply (Forall2_left _ _ _ _ Hrest). by intros a b [_ Ha]. }
    rewrite skip_ws_starts by (by apply starts_value_app).
    rewrite (IH ltac:(done) rest n) by lia. reflexivity.
Qed.

Lemma read_members_step n rest :
  read_members (S n) (String dquote rest)
  = match read_string rest with
    | None => None
    | Some (k, r) =>
        match skip_ws r with
        | String c' rest' =>
            if Ascii.eqb c' ":" then
              match read_value n (skip_ws rest') with
              | None => None
              | Some (v, r') =>
                  match skip_ws r' with
                  | String c'' rest'' =>
                      if Ascii.eqb c'' "," then
                        match read_members n (skip_ws rest'') with
                        | Some (ms, r'') => Some ((k, v) :: ms, r'')
                        | None => None
                        end
                      else if Ascii.eqb c'' "}" then Some ([(k, v)], rest'')
                      else None
                  | EmptyString => None
                  end
              end
            else None
        | EmptyString => None
        end
    end.
Proof. reflexivity. Qed.

Lemma member_text_starts part m : member_text part m -> starts_value part = true.
Proof.
  intros (v & -> & _).
  destruct (read_string_encoded (fst m) (key_separator +:+ v)) as (body & -> & _).
  reflexivity.
Qed.

Lemma member_text_length part (m : string * json) v :
  part = encode_basestring_ascii (fst m) +:+ key_separator +:+ v ->
  (String.length v + 2 <= String.length part)%nat.
Proof. intros ->. rewrite !length_append. cbn. lia. Qed.

(** The members of an object, up to the closing brace. *)
Lemma read_members_join parts members :
  Forall2 member_text parts members ->
  parts <> [] ->
  forall rest n,
    (String.length (join item_separator parts) + 1 < n)%nat ->
    read_members n (join item_separator parts +:+ String "}" rest)
    = Some (members, rest).
Proof.
  induction 1 as [| p [k t] ps ms Hp Hrest IH]; intros Hne rest n Hn; [done |].
  destruct n as [| n]; [lia |].
  destruct Hp as (v & Hpart & Hv & Hsv). cbn [fst snd] in *.
  pose proof (member_text_length p (k, t) v Hpart) as Hlen.
  destruct ps as [| q ps].
  - apply Forall2_nil_inv_l in Hrest as ->.
    change (join item_separator [p]) with p in *. subst p.
    rewrite !append_assoc.
    destruct (read_string_encoded k (key_separator +:+ v +:+ String "}" rest))
      as (body & -> & Hbody).
    rewrite read_members_step, Hbody.
    change (key_separator +:+ v +:+ String "}" rest)
      with (String ":" (String " " (v +:+ String "}" rest))).
    rewrite skip_ws_colon. change (Ascii.eqb ":" ":") with true. cbn iota.
    rewrite skip_ws_space, skip_ws_starts by (by apply starts_value_app).
    rewrite (Hv (String "}" rest) n eq_refl) by lia. reflexivity.
  - rewrite length_join_cons in Hn.
    change (join item_separator (p :: q :: ps))
      with (p +:+ item_separator +:+ join item_separator (q :: ps)).
    subst p. rewrite !append_assoc.
    destruct (read_string_encoded k
                (key_separator +:+ v +:+ item_separator
                 +:+ join item_separator (q :: ps) +:+ String "}" rest))
      as (body & -> & Hbody).
    rewrite read_members_step, Hbody.
    change (key_separator +:+ v +:+ item_separator
            +:+ join item_separator (q :: ps) +:+ String "}" rest)
      with (String ":" (String " " (v +:+ String "," (String " "
              (join item_separator (q :: ps) +:+ String "}" rest))))).
    rewrite skip_ws_colon. change (Ascii.eqb ":" ":") with true. cbn iota.
    rewrite skip_ws_space, skip_ws_starts by (by apply starts_value_app).
    rewrite (Hv (String "," (String " "
                   (join item_separator (q :: ps) +:+ String "}" rest))) n eq_refl) by lia.
    rewrite skip_ws_comma. change (Ascii.eqb "," ",") with true. cbn iota.
    rewrite skip_ws_space.
    assert (starts_value (join item_separator (q :: ps)) = true) as Hstart.
    { apply starts_value_join; [done |].
      apply (Forall2_left _ _ _ _ Hrest). intros a b. apply member_text_starts. }
    rewrite skip_ws_starts by (by apply starts_value_app).
    rewrite (IH ltac:(done) rest n) by lia. reflexivity.
Qed.

Lemma mapM_Forall2 {A B C} (f : A -> result B) (g : A -> option C)
    (R : B -> C -> Prop) l :
  (forall a b, f a = Ok b -> exists c, g a = Some c /\ R b c) ->
  forall bs, mapM f l = Ok bs ->
    exists cs, mapM_opt g l = Some cs /\ Forall2 R bs cs.
Proof.
  intros Hfg. induction l as [| a l IH]; intros bs; cbn [mapM mapM_opt].
  - intros [= <-]. by exists [].
  - destruct (f a) as [b |] eqn:Hfa; [| discriminate].
    destruct (mapM f l) as [bs' |] eqn:Hl; [| discriminate].
    intros [= <-].
    destruct (Hfg a b Hfa) as (c & -> & Hc).
    destruct (IH bs' eq_refl) as (cs & -> & Hcs).
    exists (c :: cs). split; [reflexivity | by constructor].
Qed.

Lemma mapM_nonempty {A B} (f : A -> result B) a l bs :
  mapM f (a :: l) = Ok bs -> bs <> [].
Proof.
  cbn [mapM]. destruct (f a); [| discriminate].
  destruct (mapM f l); [| discriminate]. by intros [= <-].
Qed.

(** Array and object texts are read back from their elements. *)
Lemma reads_as_array parts trees :
  Forall2 (fun p t => reads_as p t /\ starts_value p = true) parts trees ->
  parts <> [] ->
  reads_as ("[" +:+ join item_separator parts +:+ "]") (JArr trees).
Proof.
  intros Hparts Hne rest n _ Hn. destruct n as [| n]; [lia |].
  rewrite !length_append in Hn. cbn [String.length] in Hn.
  change (("[" +:+ join item_separator parts +:+ "]") +:+ rest)
    with (String "[" ((join item_separator parts +:+ "]") +:+ rest)).
  rewrite append_assoc.
  change ("]" +:+ rest) with (String "]" rest).
  assert (starts_value (join item_separator parts +:+ String "]" rest) = true) as Hstart.
  { apply starts_value_app, starts_value_join; [done |].
    apply (Forall2_left _ _ _ _ Hparts). by intros a b [_ Ha]. }
  rewrite read_value_array, (skip_ws_starts _ Hstart).
  rewrite (read_elements_join parts trees Hparts Hne rest n) by lia.
  destruct (join item_separator parts +:+ String "]" rest) as [| c body];
    [discriminate |].
  cbn [starts_value] in Hstart.
  apply andb_true_iff in Hstart as [Hstart _].
  apply andb_true_iff in Hstart as [_ Hc]. apply negb_true_iff in Hc.
  by rewrite Hc.
Qed.

Lemma reads_as_object parts members :
  Forall2 member_text parts members ->
  parts <> [] ->
  reads_as ("{" +:+ join item_separator parts +:+ "}") (JObj members).
Proof.
  intros Hparts Hne rest n _ Hn. destruct n as [| n]; [lia |].
  rewrite !length_append in Hn. cbn [String.length] in Hn.
  change (("{" +:+ join item_separator parts +:+ "}") +:+ rest)
    with (String "{" ((join item_separator parts +:+ "}") +:+ rest)).
  rewrite append_assoc.
  change ("}" +:+ rest) with (String "}" rest).
  assert (starts_value (join item_separator parts +:+ String "}" rest) = true) as Hstart.
  { apply starts_value_app, starts_value_join; [done |].
    apply (Forall2_left _ _ _ _ Hparts). intros a b. apply member_text_starts. }
  rewrite read_value_object, (skip_ws_starts _ Hstart).
  rewrite (read_members_join parts members Hparts Hne rest n) by lia.
  destruct (join item_separator parts +:+ String "}" rest) as [| c body];
    [discriminate |].
  cbn [starts_value] in Hstart.
  apply andb_true_iff in Hstart as [_ Hc]. apply negb_true_iff in Hc.
  by rewrite Hc.
Qed.

(** Every text the encoder returns is read back as the JSON value of what
    was encoded. *)
Lemma iterencode_reads depth : forall h markers o s,
  iterencode depth h markers o = Ok s ->
  exists t, reify depth h o = Some t /\ reads_as s t /\ starts_value s = true.
Proof.
  assert (forall depth h markers o s,
            (forall l, o <> VRef l) ->
            iterencode depth h markers o = Ok s ->
            exists t, reify depth h o = Some t /\ reads_as s t /\ starts_value s = true)
    as Hatom.
  { intros d h markers o s Hnoref.
    destruct o as [| [] | z | t | l]; [| | | | | by destruct (Hnoref l)];
      destruct d; cbn [iterencode reify]; intros Henc;
      first [apply int_repr_ok in Henc as -> | injection Henc as <-].
    1,2: exists JNull; split; [done |]; split; [| done];
         intros rest n _ Hn; (destruct n as [| n]; [cbn in Hn; lia |]);
         apply read_value_null.
    1,2: exists (JBool true); split; [done |]; split; [| done];
         intros rest n _ Hn; (destruct n as [| n]; [cbn in Hn; lia |]);
         apply read_value_true.
    1,2: exists (JBool false); split; [done |]; split; [| done];
         intros rest n _ Hn; (destruct n as [| n]; [cbn in Hn; lia |]);
         apply read_value_false.
    1,2: exists (JInt z); split; [done |]; apply reads_as_int.
    1,2: exists (JStr t); split; [done |]; apply reads_as_str. }
  induction depth as [| depth IH]; intros h markers o s;
    (destruct o as [| b | z | t | l];
     [by apply Hatom | by apply Hatom | by apply Hatom | by apply Hatom |]).
  - discriminate.
  - cbn [iterencode reify].
    destruct (h !! l) as [[[| v items] | [| kv items] | cls] |]; try discriminate.
    + intros [= <-]. exists (JArr []). split; [done |]. split; [| done].
      intros rest n _ Hn. destruct n as [| n]; [cbn in Hn; lia |]. reflexivity.
    + case_bool_decide; [discriminate |].
      destruct (mapM _ (v :: items)) as [parts |] eqn:Hparts; [| discriminate].
      intros [= <-].
      pose proof (mapM_nonempty _ _ _ _ Hparts) as Hne.
      destruct (mapM_Forall2 (iterencode depth h (l :: markers)) (reify depth h)
                  (fun p t => reads_as p t /\ starts_value p = true) (v :: items)
                  (IH h (l :: markers)) parts Hparts) as (trees & -> & Hall).
      exists (JArr trees). split; [done |]. split; [| done].
      by apply reads_as_array.
    + intros [= <-]. exists (JObj []). split; [done |]. split; [| done].
      intros rest n _ Hn. destruct n as [| n]; [cbn in Hn; lia |]. reflexivity.
    + case_bool_decide; [discriminate |].
      destruct (mapM _ (kv :: items)) as [parts |] eqn:Hparts; [| discriminate].
      intros [= <-].
      pose proof (mapM_nonempty _ _ _ _ Hparts) as Hne.
      eapply (mapM_Forall2 _ (fun kv : key * val =>
                match encode_key (fst kv), reify depth h (snd kv) with
                | Ok k, Some v => Some (k, v)
                | _, _ => None
                end) member_text) in Hparts as (members & -> & Hall).
      * exists (JObj members). split; [done |]. split; [| done].
        by apply reads_as_object.
      * intros [k v'] part. cbn [fst snd].
        destruct (encode_key k) as [ks |]; [| discriminate].
        destruct (iterencode depth h (l :: markers) v') as [vs |] eqn:Hv; [| discriminate].
        intros [= <-].
        destruct (IH _ _ _ _ Hv) as (t & -> & Ht & Hst).
        exists (ks, t). split; [done |]. by exists vs.
Qed.

(** A list of pairs with distinct names is the dict it makes. *)
Lemma dict_set_fresh d k v :
  k ∉ map fst d -> dict_set d k v = (d ++ [(k, v)])%list.
Proof.
  induction d as [| [k' v'] d IH]; intros Hk; [reflexivity |].
  cbn [map fst] in Hk. apply not_elem_of_cons in Hk as [Hne Hk].
  cbn [dict_set List.app]. destruct (String.eqb_spec k' k) as [-> | _]; [done |].
  by rewrite (IH Hk).
Qed.

Lemma dict_of_pairs_distinct members :
  NoDup (map fst members) -> dict_of_pairs members = members.
Proof.
  unfold dict_of_pairs.
  assert (forall acc : list (string * json),
            NoDup (map fst (acc ++ members)%list) ->
            fold_left (fun d kv => dict_set d (fst kv) (snd kv)) members acc
            = (acc ++ members)%list) as Hgen.
  { induction members as [| [k v] ms IH]; intros acc Hnd; cbn [fold_left fst snd].
    - by rewrite app_nil_r.
    - rewrite dict_set_fresh.
      + rewrite IH; [by rewrite <- app_assoc |].
        by rewrite <- app_assoc.
      + rewrite map_app in Hnd. cbn [map fst] in Hnd.
        apply NoDup_app in Hnd as (_ & Hdisj & _).
        intros Hin. apply (Hdisj k Hin). left. }
  intros Hnd. exact (Hgen [] Hnd).
Qed.

Lemma as_dicts_distinct : forall t, names_distinct t = true -> as_dicts t = t.
Proof.
  fix IH 1. intros [| b | z | s | items | members]; try reflexivity.
  - cbn [names_distinct as_dicts]. intros Hall. f_equal.
    induction items as [| x items IHitems]; [reflexivity |].
    cbn [forallb map] in *. apply andb_true_iff in Hall as [Hx Hall].
    by rewrite (IH x Hx), (IHitems Hall).
  - cbn [names_distinct as_dicts]. intros Hall.
    apply andb_true_iff in Hall as [Hnd Hall]. apply bool_decide_eq_true_1 in Hnd.
    assert (map (fun kv : string * json => (fst kv, as_dicts (snd kv))) members
            = members) as ->.
    { clear Hnd. induction members as [| [k v] members IHmembers]; [reflexivity |].
      cbn [forallb map fst snd] in *. apply andb_true_iff in Hall as [Hv Hall].
      by rewrite (IH v Hv), (IHmembers Hall). }
    by rewrite dict_of_pairs_distinct.
Qed.

Lemma dumps_reads h o s :
  dumps h o = Ok s ->
  exists t, reify recursion_limit h o = Some t /\ loads s = Some t.
Proof.
  unfold dumps. intros Hs.
  apply iterencode_reads in Hs as (t & Ht & Hread & Hstart).
  exists t. split; [exact Ht |].
  unfold loads. rewrite (skip_ws_starts s Hstart).
  specialize (Hread "" (S (String.length s)) eq_refl ltac:(lia)).
  rewrite append_nil_r in Hread. by rewrite Hread.
Qed.

(** X10.  For every value made of None, booleans, integers, strings,
    lists and dicts (floats are outside this model) and every store, the
    text [json.dumps] returns is read back member by member as the JSON
    value of what was encoded.  Decoded the way [json.loads] builds its
    dicts, it gives that value with the members of a repeated name merged
    (first place, last value), and exactly that value when no dict has two
    keys written as the same name. *)
Theorem dumps_then_loads h o s (Hdumps : dumps h o = Ok s) :
  exists t,
    reify recursion_limit h o = Some t /\
    loads s = Some t /\
    py_loads s = Some (as_dicts t) /\
    (names_distinct t = true -> py_loads s = Some t).
Proof.
  destruct (dumps_reads h o s Hdumps) as (t & Ht & Hl).
  exists t. split; [exact Ht |]. split; [exact Hl |].
  unfold py_loads. rewrite Hl. split; [reflexivity |].
  intros Hd. cbn [fmap option_fmap option_map]. by rewrite (as_dicts_distinct t Hd).
Qed.

(** A list holding a negative number, a text with a quote, a backslash, a
    line break and an accented letter, an empty list, and a dictionary
    whose keys, the number 1 and the text 1, are written as the same
    name. *)
Lemma dumps_then_loads_witness :
  let text := String (ascii_of_N 34) (String (ascii_of_N 92) (String (ascii_of_N 10)
                (String (ascii_of_N 233) "z"))) in
  let h : gmap loc obj :=
    {[ 1%positive := OList [VInt (-120); VStr text; VRef 2%positive; VRef 3%positive];
       2%positive := OList [];
       3%positive := ODict [(KInt 1, VStr "a"); (KStr "k", VBool false);
                            (KStr "1", VStr "b")] ]} in
  let s := "[-120, " +:+ quote +:+ "\" +:+ quote +:+ "\\\n\u00e9z" +:+ quote
           +:+ ", [], {" +:+ quote +:+ "1" +:+ quote +:+ ": " +:+ quote +:+ "a" +:+ quote
           +:+ ", " +:+ quote +:+ "k" +:+ quote +:+ ": false, "
           +:+ quote +:+ "1" +:+ quote +:+ ": " +:+ quote +:+ "b" +:+ quote +:+ "}]" in
  let t := JArr [JInt (-120); JStr text; JArr [];
                 JObj [("1", JStr "a"); ("k", JBool false); ("1", JStr "b")]] in
  dumps h (VRef 1%positive) = Ok s /\
  reify recursion_limit h (VRef 1%positive) = Some t /\
  py_loads s = Some (JArr [JInt (-120); JStr text; JArr [];
                           JObj [("1", JStr "b"); ("k", JBool false)]]) /\
  (exists t',
     reify recursion_limit h (VRef 1%positive) = Some t' /\
     loads s = Some t' /\
     py_loads s = Some (as_dicts t') /\
     (names_distinct t' = true -> py_loads s = Some t')).
Proof.
  intros text h s t.
  assert (dumps h (VRef 1%positive) = Ok s) as Hd by (vm_compute; reflexivity).
  split; [exact Hd |].
  split; [vm_compute; reflexivity |]. split; [vm_compute; reflexivity |].
  exact (dumps_then_loads h (VRef 1%positive) s Hd).
Defined.

End JsonRoundTrip.
